(** * Account hierarchy store: a shallow embedding of [account_manager.py]

    The Python class [AccountManager] keeps its accounts in a pandas
    [DataFrame]; keys are drawn with [random.choices].  This file embeds
    the fragment of Python, pandas and [random] that the class uses, then
    the class itself, and proves the properties of the account store. *)

From stdpp Require Import base option list strings gmap.
From Stdlib Require Import Ascii Arith Lia.

Open Scope string_scope.
Open Scope list_scope.
Open Scope nat_scope.

(** ** Python values, exceptions and outcomes *)

(** The cells of the frame hold strings, booleans, or [NaN] (the value
    pandas puts in a cell that no record filled). *)
Inductive Value : Type :=
  | VStr (s : string)
  | VBool (b : bool)
  | NaN.

#[global] Instance Value_eq_dec : EqDecision Value.
Proof. solve_decision. Defined.

(** Python's [==] on these values: [NaN] equals nothing, a string never
    equals a boolean. *)
Definition py_eq (a b : Value) : bool :=
  match a, b with
  | VStr s, VStr t => bool_decide (s = t)
  | VBool x, VBool y => bool_decide (x = y)
  | _, _ => false
  end.

(** Truth value of an object in a condition ([if x], [while x]). *)
Definition truthy (v : Value) : bool :=
  match v with
  | VStr s => negb (bool_decide (s = ""))
  | VBool b => b
  | NaN => true
  end.

Inductive Exception : Type :=
  | ValueError (msg : string)
  | KeyError (key : string)
  | IndexError (msg : string).

(** What a call does: return, raise, or still be running when the fuel
    given to its loops is spent. *)
Inductive Outcome (A : Type) : Type :=
  | Return (a : A)
  | Raise (e : Exception)
  | OutOfFuel.
Arguments Return {A} a.
Arguments Raise {A} e.
Arguments OutOfFuel {A}.

#[global] Instance Outcome_ret : MRet Outcome := λ A a, Return a.
#[global] Instance Outcome_bind : MBind Outcome := λ A B f o,
  match o with
  | Return a => f a
  | Raise e => Raise e
  | OutOfFuel => OutOfFuel
  end.

(** A Python [dict] literal keeps its keys in insertion order:
    [d[k] = v] overwrites in place or appends. *)
Fixpoint dict_setitem (d : list (string * Value)) (k : string) (v : Value)
  : list (string * Value) :=
  match d with
  | [] => [(k, v)]
  | (k', v') :: d' =>
      if bool_decide (k' = k) then (k, v) :: d'
      else (k', v') :: dict_setitem d' k v
  end.

(** ** The fragment of pandas used by the class *)
Module pd.

(** A row maps column names to cells; a name without entry reads [NaN]. *)
Record DataFrame : Type := {
  columns : list string;
  rows : list (gmap string Value)
}.

Record Series : Type := {
  index : list string;
  data : gmap string Value
}.

Definition cell (r : gmap string Value) (c : string) : Value :=
  default NaN (r !! c).

(** [pd.DataFrame()] and [pd.DataFrame(columns=cs)]. *)
Definition empty : DataFrame := {| columns := []; rows := [] |}.
Definition of_columns (cs : list string) : DataFrame :=
  {| columns := cs; rows := [] |}.

(** Columns of a concatenation: first occurrence order. *)
Definition union_columns (a b : list string) : list string :=
  a ++ filter (λ c, c ∉ a) b.

(** [pd.DataFrame(records)] for a list of dicts. *)
Definition of_records (records : list (list (string * Value))) : DataFrame :=
  {| columns := foldl (λ acc d, union_columns acc d.*1) [] records;
     rows := (λ d, list_to_map d) <$> records |}.

(** [df[c]]: the column, [KeyError] when there is no such column. *)
Definition getitem (df : DataFrame) (c : string) : Outcome (list Value) :=
  if bool_decide (c ∈ columns df)
  then Return ((λ r, cell r c) <$> rows df)
  else Raise (KeyError c).

(** [col == v], elementwise. *)
Definition eq (col : list Value) (v : Value) : list bool :=
  (λ x, py_eq x v) <$> col.

(** [v in col.values]: numpy computes [(values == v).any()]. *)
Definition contains (col : list Value) (v : Value) : bool :=
  existsb (λ b : bool, b) (eq col v).

Fixpoint select {A} (l : list A) (mask : list bool) : list A :=
  match l, mask with
  | x :: l', b :: mask' =>
      if b then x :: select l' mask' else select l' mask'
  | _, _ => []
  end.

(** [df[mask]]: the rows where the mask holds, in order. *)
Definition getitem_mask (df : DataFrame) (mask : list bool) : DataFrame :=
  {| columns := columns df; rows := select (rows df) mask |}.

Definition len (df : DataFrame) : nat := length (rows df).

(** [df.iloc[i]]. *)
Definition iloc (df : DataFrame) (i : nat) : Outcome Series :=
  match rows df !! i with
  | Some r => Return {| index := columns df; data := r |}
  | None => Raise (IndexError "single positional indexer is out-of-bounds")
  end.

(** [series.get(k, d)]. *)
Definition Series_get (s : Series) (k : string) (d : Value) : Value :=
  if bool_decide (k ∈ index s) then cell (data s) k else d.

(** [pd.concat(frames, ignore_index=True)]. *)
Definition concat (frames : list DataFrame) : DataFrame :=
  {| columns := foldl (λ acc df, union_columns acc (columns df)) [] frames;
     rows := mjoin (rows <$> frames) |}.

(** [df.copy()]: frames are values here, a copy is the frame. *)
Definition copy (df : DataFrame) : DataFrame := df.

End pd.

(** ** The fragment of [random] and [string] *)

Definition ascii_uppercase : string := "ABCDEFGHIJKLMNOPQRSTUVWXYZ".

(** The generator is a tape of naturals read from a cursor; each read
    stands for one [random()] scaled to the population size. *)
Record Random : Type := {
  tape : nat → nat;
  cursor : nat
}.

Definition randbelow (n : nat) (g : Random) : nat * Random :=
  (tape g (cursor g) mod n, {| tape := tape g; cursor := S (cursor g) |}).

(** [random.choices(population, k=k)]. *)
Fixpoint choices (population : list ascii) (k : nat) (g : Random)
  : list ascii * Random :=
  match k with
  | 0 => ([], g)
  | S k' =>
      let '(i, g1) := randbelow (length population) g in
      let '(rest, g2) := choices population k' g1 in
      (nth i population "000"%char :: rest, g2)
  end.

(** [''.join(letters)]. *)
Definition join (letters : list ascii) : string := String.string_of_list_ascii letters.

(** ** [class AccountType(Enum)] *)

Inductive AccountType : Type :=
  | ASSET | LIABILITY | EQUITY | INCOME | EXPENSE | CASH | BANK | CREDIT.

Definition members : list AccountType :=
  [ASSET; LIABILITY; EQUITY; INCOME; EXPENSE; CASH; BANK; CREDIT].

Definition value (t : AccountType) : string :=
  match t with
  | ASSET => "ASSET"
  | LIABILITY => "LIABILITY"
  | EQUITY => "EQUITY"
  | INCOME => "INCOME"
  | EXPENSE => "EXPENSE"
  | CASH => "CASH"
  | BANK => "BANK"
  | CREDIT => "CREDIT"
  end.

Definition _value2member_map_ : gmap string AccountType :=
  list_to_map ((λ t, (value t, t)) <$> members).

Definition is_valid (v : string) : bool :=
  bool_decide (is_Some (_value2member_map_ !! v)).

Definition get_all_values : list string := value <$> members.

(** ** [class AccountManager] *)

Definition REQUIRED_COLUMNS : list string :=
  ["account_key"; "parent_key"; "type"; "name"; "full_name";
   "account_number"; "currency"; "hidden"].

Definition OPTIONAL_COLUMNS : list string :=
  ["description"; "color"; "notes"; "namespace"; "tax_relevant";
   "placeholder"].

Record AccountManager : Type := { _df : pd.DataFrame }.

Definition __init__ : AccountManager :=
  {| _df := pd.of_columns (REQUIRED_COLUMNS ++ OPTIONAL_COLUMNS) |}.

(** The state a mutating call works on: the manager and the module-level
    generator of [random]. *)
Record State : Type := {
  random_state : Random;
  manager : AccountManager
}.

(** The two [ValueError]s of [create_account], with their messages. *)
Definition InvalidType (account_type : string) : Exception :=
  ValueError ("Invalid account type: " +:+ account_type +:+ ". Valid types: "
              +:+ String.concat ", " get_all_values).

Definition UnknownParent (parent_key : string) : Exception :=
  ValueError ("Parent account key '" +:+ parent_key +:+ "' does not exist").

(** [_generate_account_key] (lines 76-81): [while True] draws until the
    key is free.  [fuel] bounds the number of draws. *)
Fixpoint _generate_account_key (fuel : nat) (self : AccountManager) (g : Random)
  : Outcome string * Random :=
  match fuel with
  | 0 => (OutOfFuel, g)
  | S fuel' =>
      let '(letters, g') := choices (String.list_ascii_of_string ascii_uppercase) 5 g in
      let key := join letters in
      match
        (if negb (bool_decide ("account_key" ∈ pd.columns (_df self)))
         then Return true
         else col ← pd.getitem (_df self) "account_key";
              Return (negb (pd.contains col (VStr key))))
      with
      | Return true => (Return key, g')
      | Return false => _generate_account_key fuel' self g'
      | Raise e => (Raise e, g')
      | OutOfFuel => (OutOfFuel, g')
      end
  end.

(** Calls that change the manager or draw random numbers run in a state
    and error monad over [State]. *)
Definition M (A : Type) : Type := State → Outcome A * State.

#[global] Instance M_ret : MRet M := λ A a st, (Return a, st).
#[global] Instance M_bind : MBind M := λ A B f m st,
  match m st with
  | (Return a, st') => f a st'
  | (Raise e, st') => (Raise e, st')
  | (OutOfFuel, st') => (OutOfFuel, st')
  end.

Definition raise {A} (e : Exception) : M A := λ st, (Raise e, st).
Definition lift {A} (o : Outcome A) : M A := λ st, (o, st).
Definition get_self : M AccountManager := λ st, (Return (manager st), st).
Definition set_df (df : pd.DataFrame) : M unit := λ st,
  (Return (), {| random_state := random_state st; manager := {| _df := df |} |}).
Definition with_random {A} (f : Random → Outcome A * Random) : M A := λ st,
  let '(o, g) := f (random_state st) in
  (o, {| random_state := g; manager := manager st |}).

(** [create_account] (lines 83-142).  The keyword arguments
    [**optional_fields] are a dict, read only by membership and lookup. *)
Definition create_account (fuel : nat)
    (account_type name full_name parent_key account_number currency : string)
    (hidden : bool) (optional_fields : gmap string Value) : M string :=
  self ← get_self;
  if negb (is_valid account_type) then raise (InvalidType account_type)
  else
    _ ← (if truthy (VStr parent_key)
            && bool_decide ("account_key" ∈ pd.columns (_df self))
         then col ← lift (pd.getitem (_df self) "account_key");
              if negb (pd.contains col (VStr parent_key))
              then raise (UnknownParent parent_key)
              else mret ()
         else (mret () : M unit));
    account_key ← with_random (_generate_account_key fuel self);
    let new_account :=
      [("account_key", VStr account_key);
       ("parent_key", VStr parent_key);
       ("type", VStr account_type);
       ("name", VStr name);
       ("full_name", VStr full_name);
       ("account_number", VStr account_number);
       ("currency", VStr currency);
       ("hidden", VBool hidden)] in
    let new_account :=
      foldl (λ d field,
               match optional_fields !! field with
               | Some v => dict_setitem d field v
               | None => d
               end) new_account OPTIONAL_COLUMNS in
    let new_df := pd.of_records [new_account] in
    _ ← set_df (pd.concat [_df self; new_df]);
    (mret account_key : M string).

(** [get_account_by_key] (lines 144-160): [None] is Python's, the
    not-found result. *)
Definition get_account_by_key (self : AccountManager) (account_key : Value)
  : Outcome (option pd.Series) :=
  if negb (bool_decide ("account_key" ∈ pd.columns (_df self)))
  then Return None
  else
    col ← pd.getitem (_df self) "account_key";
    let result := pd.getitem_mask (_df self) (pd.eq col account_key) in
    if (0 <? pd.len result)%nat
    then account ← pd.iloc result 0; Return (Some account)
    else Return None.

Definition get_children (self : AccountManager) (parent_key : Value)
  : Outcome pd.DataFrame :=
  if negb (bool_decide ("parent_key" ∈ pd.columns (_df self)))
  then Return pd.empty
  else
    col ← pd.getitem (_df self) "parent_key";
    Return (pd.copy (pd.getitem_mask (_df self) (pd.eq col parent_key))).

Definition get_root_accounts (self : AccountManager) : Outcome pd.DataFrame :=
  if negb (bool_decide ("parent_key" ∈ pd.columns (_df self)))
  then Return pd.empty
  else
    col ← pd.getitem (_df self) "parent_key";
    Return (pd.copy (pd.getitem_mask (_df self) (pd.eq col (VStr "")))).

Definition max_depth : nat := 100.

(** The [while] loop of [get_account_path] (lines 206-213); [path],
    [current_key] and [depth] are its variables, [fuel] bounds the tests
    of its condition. *)
Fixpoint get_account_path_loop (fuel : nat) (self : AccountManager)
    (path : list Value) (current_key : Value) (depth : nat)
  : Outcome (list Value) :=
  match fuel with
  | 0 => OutOfFuel
  | S fuel' =>
      if truthy current_key && (depth <? max_depth)%nat
      then
        account ← get_account_by_key self current_key;
        match account with
        | None => Return path
        | Some account =>
            get_account_path_loop fuel' self (current_key :: path)
              (pd.Series_get account "parent_key" (VStr "")) (S depth)
        end
      else Return path
  end.

Definition get_account_path (fuel : nat) (self : AccountManager)
    (account_key : Value) : Outcome (list Value) :=
  get_account_path_loop fuel self [] account_key 0.

Definition get_all_accounts (self : AccountManager) : Outcome pd.DataFrame :=
  Return (pd.copy (_df self)).

(** ** Running the class on concrete data *)

Definition counting : Random := {| tape := λ i, i; cursor := 0 |}.
Definition fresh_state : State :=
  {| random_state := counting; manager := __init__ |}.

Definition cash_state : State :=
  (create_account 1 "ASSET" "Cash" "Assets:Cash" "" "" "EUR" false ∅ fresh_state).2.

(** ** Notions used to state the properties *)

(** What [get_account_by_key] computes: the first row whose key cell
    equals the argument, as a series over the frame's columns. *)
Definition first_match (self : AccountManager) (account_key : Value)
  : option pd.Series :=
  if bool_decide ("account_key" ∈ pd.columns (_df self))
  then (λ r, {| pd.index := pd.columns (_df self); pd.data := r |})
         <$> List.find (λ r, py_eq (pd.cell r "account_key") account_key)
               (pd.rows (_df self))
  else None.

(** The accounts with an empty [parent_key], in store order, as the
    data model words it. *)
Definition root_rows (self : AccountManager) : list (gmap string Value) :=
  filter (λ r, pd.cell r "parent_key" = VStr "") (pd.rows (_df self)).

(** The key that one pass of the generator's loop draws. *)
Definition draw (g : Random) : string * Random :=
  let '(letters, g') := choices (String.list_ascii_of_string ascii_uppercase) 5 g in
  (join letters, g').

Fixpoint nth_draw (n : nat) (g : Random) : string :=
  match n with
  | 0 => (draw g).1
  | S n' => nth_draw n' (draw g).2
  end.

(** No stored account has this key. *)
Definition key_free (self : AccountManager) (key : string) : Prop :=
  Forall (λ row, pd.cell row "account_key" ≠ VStr key) (pd.rows (_df self)).

#[global] Instance key_free_dec self key : Decision (key_free self key).
Proof. unfold key_free. apply _. Defined.

(** The body of the loop over [OPTIONAL_COLUMNS] in [create_account]. *)
Definition add_optional (optional_fields : gmap string Value)
    (d : list (string * Value)) (field : string) : list (string * Value) :=
  match optional_fields !! field with
  | Some v => dict_setitem d field v
  | None => d
  end.

(** The record [create_account] builds for a key. *)
Definition new_record (account_key account_type name full_name parent_key
    account_number currency : string) (hidden : bool)
    (optional_fields : gmap string Value) : list (string * Value) :=
  foldl (add_optional optional_fields)
    [("account_key", VStr account_key);
     ("parent_key", VStr parent_key);
     ("type", VStr account_type);
     ("name", VStr name);
     ("full_name", VStr full_name);
     ("account_number", VStr account_number);
     ("currency", VStr currency);
     ("hidden", VBool hidden)] OPTIONAL_COLUMNS.

(** The parent check of [create_account] fails. *)
Definition parent_rejected (self : AccountManager) (parent_key : string) : bool :=
  truthy (VStr parent_key)
  && bool_decide ("account_key" ∈ pd.columns (_df self))
  && negb (existsb (λ r, py_eq (pd.cell r "account_key") (VStr parent_key))
             (pd.rows (_df self))).

Definition isupper (c : ascii) : bool :=
  (65 <=? nat_of_ascii c)%nat && (nat_of_ascii c <=? 90)%nat.

(** Five upper-case ASCII letters. *)
Definition is_account_key (key : string) : Prop :=
  String.length key = 5
  ∧ Forall (λ c, isupper c = true) (String.list_ascii_of_string key).

(** A generator that repeats itself makes the loop draw again. *)
Definition slow : Random := {| tape := λ i, i / 10; cursor := 0 |}.
Definition slow_state : State :=
  (create_account 1 "ASSET" "Cash" "Assets:Cash" "" "" "EUR" false ∅
     {| random_state := slow; manager := __init__ |}).2.

(** ** Operations the spec lists and [account_manager.py] does not define *)

(** Modelled from the spec: how [update_account] and [delete_account]
    find their record.  Neither method is in [account_manager.py]; only
    their calls in [example_usage.py] are.  "Identifier may be an
    account_key or a name (resolved by lookup)": the position of the
    first account with that key, else of the first with that name. *)
Definition resolve (self : AccountManager) (identifier : string) : option nat :=
  match list_find (λ r, pd.cell r "account_key" = VStr identifier)
          (pd.rows (_df self)) with
  | Some (i, _) => Some i
  | None =>
      fst <$> list_find (λ r, pd.cell r "name" = VStr identifier)
                (pd.rows (_df self))
  end.

(** Modelled from the spec: [update_account(identifier, fields...)],
    missing from [account_manager.py].  "Any field except account_key may
    be overwritten; unspecified fields are left untouched"; it "returns
    false" when no record matches. *)
Definition update_account (self : AccountManager) (identifier : string)
    (fields : gmap string Value) : bool * AccountManager :=
  match resolve self identifier with
  | None => (false, self)
  | Some i =>
      (true,
       {| _df := {| pd.columns := pd.columns (_df self);
                    pd.rows := alter (λ row, delete "account_key" fields ∪ row) i
                                 (pd.rows (_df self)) |} |})
  end.

(** Modelled from the spec: [delete_account(identifier)], missing from
    [account_manager.py].  It "removes the matching record; returns false
    if not found" and "does not cascade to children and does not
    re-parent them". *)
Definition delete_account (self : AccountManager) (identifier : string)
  : bool * AccountManager :=
  match resolve self identifier with
  | None => (false, self)
  | Some i =>
      (true,
       {| _df := {| pd.columns := pd.columns (_df self);
                    pd.rows := delete i (pd.rows (_df self)) |} |})
  end.

(** ** The class as a machine: calls and the states they reach *)

Inductive Call : Type :=
  | call_create_account
      (account_type name full_name parent_key account_number currency : string)
      (hidden : bool) (optional_fields : gmap string Value)
  | call_get_account_by_key (account_key : string)
  | call_get_children (parent_key : string)
  | call_get_root_accounts
  | call_get_account_path (account_key : string)
  | call_get_all_accounts
  | call_update_account (identifier : string) (fields : gmap string Value)
  | call_delete_account (identifier : string).

Inductive Result : Type :=
  | result_key (key : string)
  | result_account (account : option pd.Series)
  | result_frame (df : pd.DataFrame)
  | result_path (path : list Value)
  | result_bool (b : bool).

(** A method that only reads [self]. *)
Definition reading {A} (f : AccountManager → Outcome A) : M A :=
  self ← get_self; lift (f self).

(** A method that replaces [self] and cannot fail. *)
Definition writing {A} (f : AccountManager → A * AccountManager) : M A := λ st,
  let '(a, self') := f (manager st) in
  (Return a, {| random_state := random_state st; manager := self' |}).

Definition run (fuel : nat) (c : Call) : M Result :=
  match c with
  | call_create_account t n fn p an cur h opt =>
      key ← create_account fuel t n fn p an cur h opt;
      (mret (result_key key) : M Result)
  | call_get_account_by_key key =>
      account ← reading (λ self, get_account_by_key self (VStr key));
      (mret (result_account account) : M Result)
  | call_get_children p =>
      df ← reading (λ self, get_children self (VStr p));
      (mret (result_frame df) : M Result)
  | call_get_root_accounts =>
      df ← reading get_root_accounts;
      (mret (result_frame df) : M Result)
  | call_get_account_path key =>
      path ← reading (λ self, get_account_path fuel self (VStr key));
      (mret (result_path path) : M Result)
  | call_get_all_accounts =>
      df ← reading get_all_accounts;
      (mret (result_frame df) : M Result)
  | call_update_account identifier fields =>
      b ← writing (λ self, update_account self identifier fields);
      (mret (result_bool b) : M Result)
  | call_delete_account identifier =>
      b ← writing (λ self, delete_account self identifier);
      (mret (result_bool b) : M Result)
  end.

Definition is_query (c : Call) : bool :=
  match c with
  | call_get_account_by_key _ | call_get_children _ | call_get_root_accounts
  | call_get_account_path _ | call_get_all_accounts => true
  | _ => false
  end.

(** The methods [account_manager.py] defines. *)
Definition in_source (c : Call) : bool :=
  match c with
  | call_update_account _ _ | call_delete_account _ => false
  | _ => true
  end.

Definition any_call (c : Call) : bool := true.

(** States reached from a new manager by calls among [allowed] that
    come back (return or raise). *)
Inductive reachable (allowed : Call → bool) : State → Prop :=
  | reachable_init g :
      reachable allowed {| random_state := g; manager := __init__ |}
  | reachable_run st fuel c o st' :
      reachable allowed st →
      allowed c = true →
      run fuel c st = (o, st') →
      o ≠ OutOfFuel →
      reachable allowed st'.

(** ** The parent graph *)

(** The walk of [get_account_path] as the spec words it: upward along
    [parent_key] from a key, at most [n] accounts, stopping at an empty
    key or an account that is not found; nearest first. *)
Fixpoint ancestors (n : nat) (self : AccountManager) (key : Value) : list Value :=
  match n with
  | 0 => []
  | S n' =>
      if truthy key then
        match first_match self key with
        | None => []
        | Some account =>
            key :: ancestors n' self (pd.Series_get account "parent_key" (VStr ""))
        end
      else []
  end.

(** Following [parent_key] links from [key] arrives, in at most [n]
    hops, at a stored account whose [parent_key] is empty. *)
Fixpoint reaches_root (n : nat) (self : AccountManager) (key : Value) : bool :=
  match first_match self key with
  | None => false
  | Some account =>
      let parent := pd.Series_get account "parent_key" (VStr "") in
      if bool_decide (parent = VStr "") then true
      else match n with
           | 0 => false
           | S n' => reaches_root n' self parent
           end
  end.

(** Every stored account reaches a root within [bound] hops and none is
    its own parent. *)
Definition acyclic_within (bound : nat) (self : AccountManager) : Prop :=
  ∀ row, row ∈ pd.rows (_df self) →
    reaches_root bound self (pd.cell row "account_key") = true
    ∧ pd.cell row "parent_key" ≠ pd.cell row "account_key".

(** Rows in creation order: each has a non-empty key no earlier row has,
    and a parent that is empty or the key of an earlier row. *)
Inductive hierarchy : list (gmap string Value) → Prop :=
  | hierarchy_nil : hierarchy []
  | hierarchy_snoc rows row key parent :
      hierarchy rows →
      pd.cell row "account_key" = VStr key →
      key ≠ "" →
      Forall (λ r, pd.cell r "account_key" ≠ VStr key) rows →
      pd.cell row "parent_key" = VStr parent →
      parent = "" ∨ Exists (λ r, pd.cell r "account_key" = VStr parent) rows →
      hierarchy (rows ++ [row])%list.

(** The frame has the two columns the hierarchy lives in, and its rows
    are in creation order. *)
Definition store_ok (self : AccountManager) : Prop :=
  "account_key" ∈ pd.columns (_df self)
  ∧ "parent_key" ∈ pd.columns (_df self)
  ∧ hierarchy (pd.rows (_df self)).

(** A manager given by its columns and rows. *)
Definition frame_of (cols : list string) (rows : list (gmap string Value))
  : AccountManager :=
  {| _df := {| pd.columns := cols; pd.rows := rows |} |}.

(** ** More concrete states *)

Definition checking_state : State :=
  (create_account 1 "BANK" "Checking" "Assets:Cash:Checking" "ABCDE" "" "EUR"
     false {[ "notes" := VStr "main" ]} cash_state).2.

Definition savings_state : State :=
  (create_account 1 "BANK" "Savings" "Assets:Cash:Checking:Savings" "FGHIJ" ""
     "EUR" false ∅ checking_state).2.

Definition looped_state : State :=
  (run 0 (call_update_account "ABCDE" {[ "parent_key" := VStr "ABCDE" ]})
     cash_state).2.

Definition orphaned_state : State :=
  (run 0 (call_delete_account "ABCDE") checking_state).2.

(** Two accounts that are each other's parent. *)
Definition cyclic : AccountManager :=
  {| _df :=
       {| pd.columns := REQUIRED_COLUMNS ++ OPTIONAL_COLUMNS;
          pd.rows :=
            [ {[ "account_key" := VStr "AAAAA"; "parent_key" := VStr "BBBBB" ]};
              {[ "account_key" := VStr "BBBBB"; "parent_key" := VStr "AAAAA" ]} ] |} |}.

(** ** The store as a whole *)

(** The column of keys, as [self._df['account_key'].values] reads it. *)
Definition account_keys (self : AccountManager) : list Value :=
  (λ r, pd.cell r "account_key") <$> pd.rows (_df self).

(** What every store built by [__init__] and [create_account] looks
    like: the fourteen columns; keys that are five upper-case letters and
    pairwise distinct; recognized types; parents that are empty or the
    key of a stored account. *)
Definition wellformed (self : AccountManager) : Prop :=
  pd.columns (_df self) = REQUIRED_COLUMNS ++ OPTIONAL_COLUMNS
  ∧ NoDup (account_keys self)
  ∧ Forall (λ r, ∃ key, pd.cell r "account_key" = VStr key ∧ is_account_key key)
      (pd.rows (_df self))
  ∧ Forall (λ r, ∃ t, pd.cell r "type" = VStr t ∧ is_valid t = true)
      (pd.rows (_df self))
  ∧ Forall (λ r, pd.cell r "parent_key" = VStr ""
                 ∨ pd.cell r "parent_key" ∈ account_keys self)
      (pd.rows (_df self)).

(** ** The query methods as statements over the state

    [create_account] above runs in [M] and replaces [self._df] with
    [set_df].  Here the five queries run in [M] too, statement by
    statement: each [self._df] the source evaluates is a [get_df], a
    call of another method threads the state through it, and nothing
    keeps a body from writing.  That they do not write is then a
    property of their bodies. *)

(** Evaluating [self._df]. *)
Definition get_df : M pd.DataFrame := λ st, (Return (_df (manager st)), st).

(** The loop ran out of fuel. *)
Definition out_of_fuel {A} : M A := λ st, (OutOfFuel, st).

Module Method.

(** [get_account_by_key] (lines 144-160). *)
Definition get_account_by_key (account_key : Value) : M (option pd.Series) :=
  df ← get_df;
  if negb (bool_decide ("account_key" ∈ pd.columns df))
  then mret None
  else
    frame ← get_df;
    keys ← get_df;
    col ← lift (pd.getitem keys "account_key");
    let result := pd.getitem_mask frame (pd.eq col account_key) in
    if (0 <? pd.len result)%nat
    then account ← lift (pd.iloc result 0); (mret (Some account) : M _)
    else mret None.

(** [get_children] (lines 162-175). *)
Definition get_children (parent_key : Value) : M pd.DataFrame :=
  df ← get_df;
  if negb (bool_decide ("parent_key" ∈ pd.columns df))
  then mret pd.empty
  else
    frame ← get_df;
    parents ← get_df;
    col ← lift (pd.getitem parents "parent_key");
    (mret (pd.copy (pd.getitem_mask frame (pd.eq col parent_key))) : M _).

(** [get_root_accounts] (lines 177-187). *)
Definition get_root_accounts : M pd.DataFrame :=
  df ← get_df;
  if negb (bool_decide ("parent_key" ∈ pd.columns df))
  then mret pd.empty
  else
    frame ← get_df;
    parents ← get_df;
    col ← lift (pd.getitem parents "parent_key");
    (mret (pd.copy (pd.getitem_mask frame (pd.eq col (VStr "")))) : M _).

(** The loop of [get_account_path] (lines 206-213); each pass calls the
    method [get_account_by_key]. *)
Fixpoint get_account_path_loop (fuel : nat) (path : list Value)
    (current_key : Value) (depth : nat) : M (list Value) :=
  match fuel with
  | 0 => out_of_fuel
  | S fuel' =>
      if truthy current_key && (depth <? max_depth)%nat
      then
        account ← get_account_by_key current_key;
        match account with
        | None => mret path
        | Some account =>
            get_account_path_loop fuel' (current_key :: path)
              (pd.Series_get account "parent_key" (VStr "")) (S depth)
        end
      else mret path
  end.

(** [get_account_path] (lines 189-215). *)
Definition get_account_path (fuel : nat) (account_key : Value) : M (list Value) :=
  get_account_path_loop fuel [] account_key 0.

(** [get_all_accounts] (lines 217-224). *)
Definition get_all_accounts : M pd.DataFrame :=
  df ← get_df;
  (mret (pd.copy df) : M _).

End Method.

(** * Properties *)

Example create_cash :
  (create_account 1 "ASSET" "Cash" "Assets:Cash" "" "" "EUR" false ∅ fresh_state).1
  = Return "ABCDE".
Proof. vm_compute. reflexivity. Qed.

Example create_checking :
  (create_account 1 "BANK" "Checking" "Assets:Cash:Checking" "ABCDE" "" "EUR"
     false {[ "notes" := VStr "main" ]} cash_state).1
  = Return "FGHIJ".
Proof. vm_compute. reflexivity. Qed.

(** ** Basic facts about the pandas fragment *)

Lemma py_eq_VStr v (k : string) : py_eq v (VStr k) = true ↔ v = VStr k.
Proof.
  destruct v as [s| |]; simpl; try (split; [discriminate | congruence]).
  rewrite bool_decide_eq_true. split; congruence.
Qed.

Lemma py_eq_VStr_false v (k : string) : py_eq v (VStr k) = false ↔ v ≠ VStr k.
Proof.
  rewrite <- py_eq_VStr. destruct (py_eq v (VStr k)); split; congruence.
Qed.

Lemma select_eq (l : list (gmap string Value)) c v :
  pd.select l (pd.eq ((λ r, pd.cell r c) <$> l) v)
  = List.filter (λ r, py_eq (pd.cell r c) v) l.
Proof.
  induction l as [|r l IH]; simpl; [done|].
  destruct (py_eq _ _); [f_equal|]; exact IH.
Qed.

Lemma contains_existsb (l : list (gmap string Value)) c v :
  pd.contains ((λ r, pd.cell r c) <$> l) v
  = existsb (λ r, py_eq (pd.cell r c) v) l.
Proof.
  unfold pd.contains, pd.eq.
  induction l as [|r l IH]; simpl; [done|].
  f_equal. exact IH.
Qed.

Lemma existsb_false_iff {A} (f : A → bool) (l : list A) :
  existsb f l = false ↔ ∀ x, x ∈ l → f x = false.
Proof.
  induction l as [|a l IH]; simpl.
  - split; [intros _ x Hx; inversion Hx | done].
  - rewrite orb_false_iff, IH. split.
    + intros [Ha Hl] x Hx. apply elem_of_cons in Hx as [->|Hx]; auto.
    + intros H. split; [apply H; left | intros x Hx; apply H; by right].
Qed.

Lemma find_none_iff {A} (f : A → bool) (l : list A) :
  List.find f l = None ↔ ∀ x, x ∈ l → f x = false.
Proof.
  induction l as [|a l IH]; simpl.
  - split; [intros _ x Hx; inversion Hx | done].
  - destruct (f a) eqn:Ha.
    + split; [discriminate|]. intros H. specialize (H a (list_elem_of_here _ _)).
      congruence.
    + rewrite IH. split.
      * intros Hl x Hx. apply elem_of_cons in Hx as [->|Hx]; auto.
      * intros H x Hx. apply H. by right.
Qed.

Lemma head_filter_find {A} (f : A → bool) (l : list A) :
  head (List.filter f l) = List.find f l.
Proof. induction l as [|a l IH]; simpl; [done|]. by destruct (f a). Qed.

Lemma filter_all_true (P : string → Prop) `{∀ x, Decision (P x)} (l : list string) :
  (∀ x, x ∈ l → P x) → filter P l = l.
Proof.
  induction l as [|a l IH]; intros Hl; [done|].
  rewrite filter_cons_True by (apply Hl; left).
  f_equal. apply IH. intros x Hx. apply Hl. by right.
Qed.

Lemma union_columns_nil (l : list string) : pd.union_columns [] l = l.
Proof.
  unfold pd.union_columns. simpl. apply filter_all_true.
  intros x _ Hx. inversion Hx.
Qed.

Lemma elem_of_union_columns (a b : list string) c :
  c ∈ pd.union_columns a b ↔ c ∈ a ∨ c ∈ b.
Proof.
  unfold pd.union_columns. rewrite elem_of_app, list_elem_of_filter.
  destruct (decide (c ∈ a)); tauto.
Qed.

Lemma concat_two df1 df2 :
  pd.concat [df1; df2]
  = {| pd.columns := pd.union_columns (pd.columns df1) (pd.columns df2);
       pd.rows := pd.rows df1 ++ pd.rows df2 |}.
Proof.
  unfold pd.concat. simpl. rewrite union_columns_nil, app_nil_r. reflexivity.
Qed.

Lemma of_records_one (d : list (string * Value)) :
  pd.of_records [d] = {| pd.columns := d.*1; pd.rows := [list_to_map d] |}.
Proof. unfold pd.of_records. simpl. by rewrite union_columns_nil. Qed.

Lemma list_to_map_dict_setitem (d : list (string * Value)) k v :
  (list_to_map (dict_setitem d k v) : gmap string Value)
  = <[k := v]> (list_to_map d).
Proof.
  induction d as [|[k' v'] d IH]; simpl; [done|].
  case_bool_decide as Hk; simpl.
  - subst. by rewrite insert_insert_eq.
  - rewrite IH. by apply insert_insert_ne.
Qed.

Lemma dict_setitem_keys (d : list (string * Value)) k v c :
  c ∈ (dict_setitem d k v).*1 ↔ c = k ∨ c ∈ d.*1.
Proof.
  induction d as [|[k' v'] d IH]; simpl.
  - rewrite list_elem_of_singleton. split; [auto|]. intros [?|H]; [done|inversion H].
  - case_bool_decide as Hk; simpl; rewrite !elem_of_cons.
    + subst k'. tauto.
    + rewrite IH. tauto.
Qed.

Lemma get_account_by_key_first_match self k :
  get_account_by_key self k = Return (first_match self k).
Proof.
  unfold get_account_by_key, first_match, pd.getitem.
  case_bool_decide as Hc; [|done].
  cbn [negb mbind Outcome_bind].
  unfold pd.len, pd.iloc, pd.getitem_mask. cbn [pd.rows pd.columns].
  rewrite select_eq, <- head_filter_find.
  destruct (List.filter _ _) as [|r l]; simpl; done.
Qed.

Lemma children_rows self p :
  get_children self p
  = Return (if bool_decide ("parent_key" ∈ pd.columns (_df self))
            then {| pd.columns := pd.columns (_df self);
                    pd.rows := List.filter (λ r, py_eq (pd.cell r "parent_key") p)
                                 (pd.rows (_df self)) |}
            else pd.empty).
Proof.
  unfold get_children, pd.getitem, pd.copy, pd.getitem_mask.
  case_bool_decide; [|done]. cbn [negb mbind Outcome_bind]. by rewrite select_eq.
Qed.

Lemma filter_py_eq_VStr (l : list (gmap string Value)) c (k : string) :
  List.filter (λ r, py_eq (pd.cell r c) (VStr k)) l
  = filter (λ r, pd.cell r c = VStr k) l.
Proof.
  induction l as [|r l IH]; simpl; [done|].
  destruct (py_eq _ _) eqn:E.
  - apply py_eq_VStr in E. rewrite filter_cons_True by done. by rewrite IH.
  - apply py_eq_VStr_false in E. rewrite filter_cons_False by done. done.
Qed.

(** ** Queries *)

(** C8: [get_children("")] and [get_root_accounts()] return the same
    frame, whose rows are the accounts with empty [parent_key] in store
    order (a frame without a [parent_key] column has no such account and
    both return the empty frame). *)
Theorem get_children_empty_is_get_root_accounts (self : AccountManager) :
  get_children self (VStr "") = get_root_accounts self
  ∧ get_root_accounts self
    = Return (if bool_decide ("parent_key" ∈ pd.columns (_df self))
              then {| pd.columns := pd.columns (_df self);
                      pd.rows := root_rows self |}
              else pd.empty).
Proof.
  split; [reflexivity|].
  change (get_root_accounts self) with (get_children self (VStr "")).
  rewrite children_rows. unfold root_rows.
  by rewrite filter_py_eq_VStr.
Qed.

(** C9: a lookup miss is a normal result.  [get_account_by_key] and
    [get_children] return for every store and argument (they never
    raise and need no fuel); when no stored account has the key the
    former returns [None], and when no stored account has the argument
    as its [parent_key] the latter returns a frame without rows. *)
Theorem lookup_misses_are_soft (self : AccountManager) (key parent_key : string) :
  (∃ r, get_account_by_key self (VStr key) = Return r
        ∧ ((∀ row, row ∈ pd.rows (_df self) →
                   pd.cell row "account_key" ≠ VStr key) → r = None))
  ∧ (∃ df, get_children self (VStr parent_key) = Return df
        ∧ ((∀ row, row ∈ pd.rows (_df self) →
                   pd.cell row "parent_key" ≠ VStr parent_key) →
           pd.rows df = [])).
Proof.
  split.
  - eexists. split; [apply get_account_by_key_first_match|].
    intros Hmiss. unfold first_match. case_bool_decide; [|done].
    replace (List.find _ _) with (@None (gmap string Value)); [done|].
    symmetry. apply find_none_iff. intros row Hrow.
    apply py_eq_VStr_false. by apply Hmiss.
  - eexists. split; [apply children_rows|].
    intros Hmiss. case_bool_decide; [|done]. simpl.
    rewrite filter_py_eq_VStr.
    induction (pd.rows (_df self)) as [|r l IH]; [done|].
    rewrite filter_cons_False by (apply Hmiss; left).
    apply IH. intros row Hrow. apply Hmiss. by right.
Qed.

Lemma lookup_misses_are_soft_witness :
  get_account_by_key (manager cash_state) (VStr "ZZZZZ") = Return None
  ∧ ∃ df, get_children (manager cash_state) (VStr "ABCDE") = Return df
          ∧ pd.rows df = [].
Proof.
  destruct (lookup_misses_are_soft (manager cash_state) "ZZZZZ" "ABCDE")
    as [(r & Hr & Hnone) (df & Hdf & Hempty)].
  split.
  - rewrite Hr. f_equal. apply Hnone.
    intros row Hrow. vm_compute in Hrow.
    apply list_elem_of_singleton in Hrow. subst row. vm_compute. discriminate.
  - exists df. split; [exact Hdf|]. apply Hempty.
    intros row Hrow. vm_compute in Hrow.
    apply list_elem_of_singleton in Hrow. subst row. vm_compute. discriminate.
Defined.

(** ** Creation *)

Lemma is_valid_iff (v : string) : is_valid v = true ↔ v ∈ get_all_values.
Proof.
  unfold is_valid, _value2member_map_.
  rewrite bool_decide_eq_true, <- not_eq_None_Some, <- not_elem_of_list_to_map.
  change (((λ t, (value t, t)) <$> members).*1) with get_all_values.
  destruct (decide (v ∈ get_all_values)); tauto.
Qed.

Lemma key_free_forall self key :
  key_free self key
  ↔ ∀ row, row ∈ pd.rows (_df self) → pd.cell row "account_key" ≠ VStr key.
Proof. unfold key_free. apply Forall_forall. Qed.

Lemma key_free_existsb self key :
  negb (existsb (λ r, py_eq (pd.cell r "account_key") (VStr key))
          (pd.rows (_df self))) = true ↔ key_free self key.
Proof.
  rewrite negb_true_iff, existsb_false_iff, key_free_forall.
  split; intros H row Hrow; apply py_eq_VStr_false; by apply H.
Qed.

Lemma _generate_account_key_step fuel self g :
  "account_key" ∈ pd.columns (_df self) →
  _generate_account_key (S fuel) self g
  = if decide (key_free self (draw g).1)
    then (Return (draw g).1, (draw g).2)
    else _generate_account_key fuel self (draw g).2.
Proof.
  intros Hc. unfold draw. cbn [_generate_account_key].
  destruct (choices _ 5 g) as [letters g'].
  rewrite bool_decide_eq_true_2 by done. cbn [negb]. unfold pd.getitem.
  rewrite bool_decide_eq_true_2 by done. cbn [mbind Outcome_bind fst snd].
  rewrite contains_existsb.
  destruct (decide _) as [Hf|Hf].
  - apply key_free_existsb in Hf. by rewrite Hf.
  - destruct (negb _) eqn:E; [|done]. by apply key_free_existsb in E.
Qed.

(** With a free key among the first [fuel] draws, the generator returns
    the first such key. *)
Lemma _generate_account_key_returns fuel self g :
  "account_key" ∈ pd.columns (_df self) →
  (∃ i, i < fuel ∧ key_free self (nth_draw i g)) →
  ∃ i g', _generate_account_key fuel self g = (Return (nth_draw i g), g')
          ∧ i < fuel ∧ key_free self (nth_draw i g).
Proof.
  intros Hc. revert g. induction fuel as [|fuel IH]; intros g (i & Hi & Hfree).
  - lia.
  - rewrite _generate_account_key_step by done.
    destruct (decide _) as [Hf|Hf].
    + exists 0, (draw g).2. split; [done|]. split; [lia|done].
    + destruct i as [|i]; [done|]. simpl in Hfree.
      destruct (IH (draw g).2) as (j & g' & Hgen & Hj & Hjfree).
      { exists i. split; [lia|done]. }
      exists (S j), g'. simpl. split; [done|]. split; [lia|done].
Qed.

(** The generator does not raise, whatever the frame. *)
Lemma _generate_account_key_no_raise fuel self g e g' :
  _generate_account_key fuel self g ≠ (Raise e, g').
Proof.
  revert g. induction fuel as [|fuel IH]; intros g;
    cbn [_generate_account_key]; [done|].
  destruct (choices _ 5 g) as [letters g1]. unfold pd.getitem.
  case_bool_decide; cbn [negb mbind Outcome_bind].
  - destruct (negb (pd.contains _ _)); [done|apply IH].
  - done.
Qed.

Lemma create_account_eq fuel t n fn p an cur h opt st :
  create_account fuel t n fn p an cur h opt st
  = if negb (is_valid t) then (Raise (InvalidType t), st)
    else if parent_rejected (manager st) p then (Raise (UnknownParent p), st)
    else
      match _generate_account_key fuel (manager st) (random_state st) with
      | (Return key, g) =>
          (Return key,
           {| random_state := g;
              manager := {| _df := pd.concat
                              [_df (manager st);
                               pd.of_records [new_record key t n fn p an cur h opt]] |} |})
      | (Raise e, g) => (Raise e, {| random_state := g; manager := manager st |})
      | (OutOfFuel, g) => (OutOfFuel, {| random_state := g; manager := manager st |})
      end.
Proof.
  unfold create_account, parent_rejected.
  unfold mbind, M_bind, get_self, raise, lift, set_df, with_random, mret, M_ret, pd.getitem.
  destruct (negb (is_valid t)); [done|].
  destruct (truthy (VStr p)); cbn [andb]; [case_bool_decide; cbn [andb]|].
  - cbn [Outcome_bind]. rewrite contains_existsb.
    destruct (negb (existsb _ _)); [done|].
    destruct (_generate_account_key _ _ _) as [[key| |] g]; reflexivity.
  - destruct (_generate_account_key _ _ _) as [[key| |] g]; reflexivity.
  - destruct (_generate_account_key _ _ _) as [[key| |] g]; reflexivity.
Qed.

Lemma InvalidType_not_UnknownParent t p : InvalidType t ≠ UnknownParent p.
Proof. unfold InvalidType, UnknownParent. simpl. discriminate. Qed.

Lemma parent_rejected_iff self p :
  "account_key" ∈ pd.columns (_df self) →
  parent_rejected self p = true ↔ p ≠ "" ∧ key_free self p.
Proof.
  intros Hc. unfold parent_rejected.
  rewrite !andb_true_iff, key_free_existsb, bool_decide_eq_true. simpl.
  rewrite negb_true_iff, bool_decide_eq_false. tauto.
Qed.

(** C2: [create_account] raises the invalid-type [ValueError] exactly
    when the type string is not one of the eight [AccountType] values,
    and then the state (the frame, and the generator) is unchanged. *)
Theorem create_account_invalid_type fuel t n fn p an cur h opt st :
  let r := create_account fuel t n fn p an cur h opt st in
  (r.1 = Raise (InvalidType t)
   ↔ t ∉ ["ASSET"; "LIABILITY"; "EQUITY"; "INCOME"; "EXPENSE"; "CASH"; "BANK";
          "CREDIT"])
  ∧ (r.1 = Raise (InvalidType t) → r.2 = st).
Proof.
  intros r. subst r. rewrite create_account_eq.
  change ["ASSET"; "LIABILITY"; "EQUITY"; "INCOME"; "EXPENSE"; "CASH"; "BANK";
          "CREDIT"] with get_all_values.
  rewrite <- is_valid_iff.
  destruct (is_valid t); cbn [negb].
  - assert (∀ o : Outcome string * State, o.1 ≠ Raise (InvalidType t) →
            (o.1 = Raise (InvalidType t) ↔ true ≠ true)
            ∧ (o.1 = Raise (InvalidType t) → o.2 = st)) as Hno.
    { intros o Ho. split; [split|]; intros; congruence. }
    apply Hno.
    destruct (parent_rejected _ _); simpl.
    + intros H. apply (InvalidType_not_UnknownParent t p). congruence.
    + destruct (_generate_account_key _ _ _) as [[key| |] g] eqn:E; simpl;
        try discriminate.
      by apply _generate_account_key_no_raise in E.
  - simpl. split; [|done]. split; [discriminate|done].
Qed.

Lemma create_account_invalid_type_witness :
  create_account 1 "STOCK" "Shares" "Assets:Shares" "" "" "EUR" false ∅ cash_state
  = (Raise (InvalidType "STOCK"), cash_state).
Proof.
  destruct (create_account_invalid_type 1 "STOCK" "Shares" "Assets:Shares" ""
              "" "EUR" false ∅ cash_state) as [Hiff Hsame].
  assert ("STOCK" ∉ ["ASSET"; "LIABILITY"; "EQUITY"; "INCOME"; "EXPENSE";
                     "CASH"; "BANK"; "CREDIT"]) as Hnot.
  { apply (bool_decide_unpack _). vm_compute. exact I. }
  apply Hiff in Hnot. apply injective_projections; [exact Hnot|].
  apply Hsame, Hnot.
Defined.

(** C3: with a recognized type, [create_account] raises the
    unknown-parent [ValueError] exactly when [parent_key] is non-empty
    and no stored account has it as [account_key], and then the state is
    unchanged. *)
Theorem create_account_unknown_parent fuel t n fn p an cur h opt st :
  is_valid t = true →
  "account_key" ∈ pd.columns (_df (manager st)) →
  let r := create_account fuel t n fn p an cur h opt st in
  (r.1 = Raise (UnknownParent p) ↔ p ≠ "" ∧ key_free (manager st) p)
  ∧ (r.1 = Raise (UnknownParent p) → r.2 = st).
Proof.
  intros Ht Hc r. subst r. rewrite create_account_eq, Ht. cbn [negb].
  rewrite <- parent_rejected_iff by done.
  destruct (parent_rejected _ _); simpl.
  - split; [split|]; done.
  - destruct (_generate_account_key _ _ _) as [[key| |] g] eqn:E; simpl;
      try (split; [split|]; discriminate).
    by apply _generate_account_key_no_raise in E.
Qed.

Lemma create_account_unknown_parent_witness :
  create_account 1 "BANK" "Checking" "Assets:Checking" "QQQQQ" "" "EUR" false ∅
    cash_state
  = (Raise (UnknownParent "QQQQQ"), cash_state).
Proof.
  destruct (create_account_unknown_parent 1 "BANK" "Checking" "Assets:Checking"
              "QQQQQ" "" "EUR" false ∅ cash_state) as [Hiff Hsame].
  - reflexivity.
  - apply (bool_decide_unpack _). vm_compute. exact I.
  - assert ("QQQQQ" ≠ "" ∧ key_free (manager cash_state) "QQQQQ") as Hp.
    { split; [discriminate|]. apply (bool_decide_unpack _). vm_compute. exact I. }
    apply Hiff in Hp. apply injective_projections; [exact Hp|].
    apply Hsame, Hp.
Defined.

(** *** Shape of the generated key *)

Lemma choices_length population k g : length (choices population k g).1 = k.
Proof.
  revert g. induction k as [|k IH]; intros g; [done|].
  cbn [choices]. unfold randbelow.
  specialize (IH {| tape := tape g; cursor := S (cursor g) |}).
  destruct (choices population k _) as [rest g2]. simpl in *. by rewrite IH.
Qed.

Lemma choices_from_population population k g :
  population ≠ [] → Forall (λ c, c ∈ population) (choices population k g).1.
Proof.
  intros Hne. revert g. induction k as [|k IH]; intros g; [constructor|].
  cbn [choices]. unfold randbelow.
  specialize (IH {| tape := tape g; cursor := S (cursor g) |}).
  destruct (choices population k _) as [rest g2]. cbn [fst] in *.
  constructor; [|done].
  apply list_elem_of_In, nth_In, Nat.mod_upper_bound.
  by destruct population.
Qed.

Lemma length_string_of_list_ascii (l : list ascii) :
  String.length (String.string_of_list_ascii l) = length l.
Proof. induction l as [|c l IH]; simpl; [done|]. by rewrite IH. Qed.

Lemma ascii_uppercase_isupper :
  Forall (λ c, isupper c = true) (String.list_ascii_of_string ascii_uppercase).
Proof. vm_compute. repeat constructor. Qed.

Lemma draw_is_account_key g : is_account_key (draw g).1.
Proof.
  unfold draw, is_account_key, join.
  pose proof (choices_length (String.list_ascii_of_string ascii_uppercase) 5 g) as Hlen.
  pose proof (choices_from_population (String.list_ascii_of_string ascii_uppercase)
                5 g) as Hpop.
  destruct (choices _ 5 g) as [letters g']. cbn [fst] in *.
  rewrite length_string_of_list_ascii, String.list_ascii_of_string_of_list_ascii.
  split; [done|].
  eapply Forall_impl; [apply Hpop; discriminate|].
  intros c Hc. pose proof ascii_uppercase_isupper as Hup.
  rewrite Forall_forall in Hup. by apply Hup.
Qed.

Lemma nth_draw_is_account_key i g : is_account_key (nth_draw i g).
Proof.
  revert g. induction i as [|i IH]; intros g; simpl; [|apply IH].
  apply draw_is_account_key.
Qed.

(** Whatever the generator returns is one of its draws, and free when
    the frame has the key column. *)
Lemma _generate_account_key_inv fuel self g key g' :
  _generate_account_key fuel self g = (Return key, g') →
  (∃ i, i < fuel ∧ key = nth_draw i g)
  ∧ ("account_key" ∈ pd.columns (_df self) → key_free self key).
Proof.
  revert g. induction fuel as [|fuel IH]; intros g; [done|].
  destruct (decide ("account_key" ∈ pd.columns (_df self))) as [Hc|Hc].
  - rewrite _generate_account_key_step by done.
    destruct (decide _) as [Hf|Hf].
    + intros [= <- <-]. split; [exists 0; split; [lia|done] | done].
    + intros Hgen. apply IH in Hgen as [(i & Hi & ->) Hfree].
      split; [exists (S i); split; [lia|done] | done].
  - cbn [_generate_account_key].
    destruct (choices _ 5 g) as [letters g1] eqn:E.
    rewrite bool_decide_eq_false_2 by done. cbn [negb].
    intros [= <- <-]. split; [|done]. exists 0. split; [lia|].
    cbn [nth_draw]. unfold draw. by rewrite E.
Qed.

(** *** The record built from the arguments *)

Lemma optional_lookup_other (optional_fields : gmap string Value) fields d c :
  c ∉ fields →
  (list_to_map (foldl (add_optional optional_fields) d fields) : gmap string Value) !! c
  = (list_to_map d : gmap string Value) !! c.
Proof.
  revert d. induction fields as [|f fields IH]; intros d Hc; [done|].
  apply not_elem_of_cons in Hc as [Hcf Hc]. cbn [foldl].
  rewrite IH by done. unfold add_optional.
  destruct (optional_fields !! f); [|done].
  rewrite list_to_map_dict_setitem. by apply lookup_insert_ne.
Qed.

Lemma optional_lookup_supplied (optional_fields : gmap string Value) fields d c v :
  c ∈ fields → optional_fields !! c = Some v →
  (list_to_map (foldl (add_optional optional_fields) d fields) : gmap string Value) !! c = Some v.
Proof.
  revert d. induction fields as [|f fields IH]; intros d Hc Hv;
    [by apply not_elem_of_nil in Hc|].
  cbn [foldl]. destruct (decide (c ∈ fields)) as [Hin|Hnotin].
  - by apply IH.
  - apply elem_of_cons in Hc as [->|Hc]; [|done].
    rewrite optional_lookup_other by done. unfold add_optional. rewrite Hv.
    rewrite list_to_map_dict_setitem. apply lookup_insert_eq.
Qed.

Lemma optional_keys_kept (optional_fields : gmap string Value) fields d c :
  c ∈ d.*1 → c ∈ (foldl (add_optional optional_fields) d fields).*1.
Proof.
  revert d. induction fields as [|f fields IH]; intros d Hc; [done|].
  cbn [foldl]. apply IH. unfold add_optional.
  destruct (optional_fields !! f); [|done].
  apply dict_setitem_keys. by right.
Qed.

Lemma optional_keys_supplied (optional_fields : gmap string Value) fields d c v :
  c ∈ fields → optional_fields !! c = Some v →
  c ∈ (foldl (add_optional optional_fields) d fields).*1.
Proof.
  revert d. induction fields as [|f fields IH]; intros d Hc Hv;
    [by apply not_elem_of_nil in Hc|].
  cbn [foldl]. apply elem_of_cons in Hc as [->|Hc]; [|by apply IH].
  apply optional_keys_kept. unfold add_optional. rewrite Hv.
  apply dict_setitem_keys. by left.
Qed.

Lemma new_record_required key t n fn p an cur h (opt : gmap string Value) c v :
  (c, v) ∈ [("account_key", VStr key); ("parent_key", VStr p);
            ("type", VStr t); ("name", VStr n); ("full_name", VStr fn);
            ("account_number", VStr an); ("currency", VStr cur);
            ("hidden", VBool h)] →
  c ∈ (new_record key t n fn p an cur h opt).*1 ∧ pd.cell (list_to_map (new_record key t n fn p an cur h opt)) c = v.
Proof.
  intros Hcv. unfold new_record. split.
  - apply optional_keys_kept.
    apply (list_elem_of_fmap_2 fst) in Hcv. exact Hcv.
  - unfold pd.cell. rewrite optional_lookup_other.
    + repeat (apply elem_of_cons in Hcv as [[= -> ->]|Hcv]; [reflexivity|]).
      by apply not_elem_of_nil in Hcv.
    + repeat (apply elem_of_cons in Hcv as [[= -> ->]|Hcv];
              [apply (bool_decide_unpack _); vm_compute; exact I|]).
      by apply not_elem_of_nil in Hcv.
Qed.

Lemma new_record_optional key t n fn p an cur h (opt : gmap string Value) c v :
  c ∈ OPTIONAL_COLUMNS → opt !! c = Some v →
  c ∈ (new_record key t n fn p an cur h opt).*1 ∧ pd.cell (list_to_map (new_record key t n fn p an cur h opt)) c = v.
Proof.
  intros Hc Hv. unfold new_record. split.
  - by eapply optional_keys_supplied.
  - unfold pd.cell. by erewrite optional_lookup_supplied.
Qed.

Lemma parent_accepted self p :
  p = "" ∨ (∃ row, row ∈ pd.rows (_df self) ∧ pd.cell row "account_key" = VStr p) →
  parent_rejected self p = false.
Proof.
  unfold parent_rejected. intros [->|(row & Hrow & Hkey)]; [done|].
  apply andb_false_iff. right. apply negb_false_iff, existsb_exists.
  exists row. split; [by apply list_elem_of_In | by apply py_eq_VStr].
Qed.

(** C1: a valid creation (recognized type, parent empty or the key of a
    stored account) returns as soon as the generator draws a free key
    within the fuel; the key returned is five upper-case ASCII letters,
    no stored account has it, and the frame afterwards is the frame
    before with one record appended, which carries the key. *)
Theorem create_account_returns_fresh_key fuel t n fn p an cur h opt st :
  is_valid t = true →
  "account_key" ∈ pd.columns (_df (manager st)) →
  p = "" ∨ (∃ row, row ∈ pd.rows (_df (manager st))
                   ∧ pd.cell row "account_key" = VStr p) →
  (∃ i, i < fuel ∧ key_free (manager st) (nth_draw i (random_state st))) →
  ∃ key st' row,
    create_account fuel t n fn p an cur h opt st = (Return key, st')
    ∧ is_account_key key
    ∧ key_free (manager st) key
    ∧ pd.rows (_df (manager st')) = (pd.rows (_df (manager st)) ++ [row])%list
    ∧ pd.cell row "account_key" = VStr key.
Proof.
  intros Ht Hc Hp Hdraw.
  destruct (_generate_account_key_returns fuel (manager st) (random_state st) Hc Hdraw)
    as (i & g' & Hgen & Hi & Hfree).
  rewrite create_account_eq, Ht, parent_accepted, Hgen by done. cbn [negb].
  eexists _, _, _. split; [reflexivity|].
  split; [apply nth_draw_is_account_key|]. split; [done|].
  cbn [manager _df]. rewrite concat_two, of_records_one. cbn [pd.rows].
  split; [reflexivity|].
  apply new_record_required. left.
Qed.

Lemma create_account_returns_fresh_key_witness :
  ∃ key st' row,
    create_account 1 "BANK" "Checking" "Assets:Cash:Checking" "ABCDE" "" "EUR"
      false ∅ cash_state = (Return key, st')
    ∧ is_account_key key
    ∧ key_free (manager cash_state) key
    ∧ pd.rows (_df (manager st'))
      = (pd.rows (_df (manager cash_state)) ++ [row])%list
    ∧ pd.cell row "account_key" = VStr key.
Proof.
  apply create_account_returns_fresh_key.
  - reflexivity.
  - apply (bool_decide_unpack _). vm_compute. exact I.
  - right. eexists. split; [left|]. reflexivity.
  - exists 0. split; [lia|]. apply (bool_decide_unpack _). vm_compute. exact I.
Defined.

Example create_collides_once :
  (create_account 1 "CASH" "Till" "Assets:Till" "AAAAA" "" "EUR" false ∅ slow_state).1
  = OutOfFuel
  ∧ (create_account 2 "CASH" "Till" "Assets:Till" "AAAAA" "" "EUR" false ∅ slow_state).1
    = Return "BBBBB".
Proof. split; vm_compute; reflexivity. Qed.

(** *** Reading back what was created *)

Lemma find_app_miss {A} (f : A → bool) (l l' : list A) :
  (∀ x, x ∈ l → f x = false) → List.find f (l ++ l') = List.find f l'.
Proof.
  induction l as [|a l IH]; intros Hl; [done|]. simpl.
  rewrite (Hl a) by left. apply IH. intros x Hx. apply Hl. by right.
Qed.

(** C5: when [create_account] returns a key, [get_account_by_key] on
    that key in the state it leaves returns a record, and in it every
    field reads as passed: the key itself, [parent_key], [type], [name],
    [full_name], [account_number], [currency], [hidden], and each
    optional column supplied in the keyword arguments. *)
Theorem create_then_get fuel t n fn p an cur h opt st key st' :
  "account_key" ∈ pd.columns (_df (manager st)) →
  create_account fuel t n fn p an cur h opt st = (Return key, st') →
  ∃ account,
    get_account_by_key (manager st') (VStr key) = Return (Some account)
    ∧ (∀ d, pd.Series_get account "account_key" d = VStr key
            ∧ pd.Series_get account "parent_key" d = VStr p
            ∧ pd.Series_get account "type" d = VStr t
            ∧ pd.Series_get account "name" d = VStr n
            ∧ pd.Series_get account "full_name" d = VStr fn
            ∧ pd.Series_get account "account_number" d = VStr an
            ∧ pd.Series_get account "currency" d = VStr cur
            ∧ pd.Series_get account "hidden" d = VBool h)
    ∧ (∀ field v d, field ∈ OPTIONAL_COLUMNS → opt !! field = Some v →
                    pd.Series_get account field d = v).
Proof.
  intros Hc. rewrite create_account_eq.
  destruct (negb (is_valid t)); [discriminate|].
  destruct (parent_rejected _ _); [discriminate|].
  destruct (_generate_account_key _ _ _) as [[k| |] g] eqn:Hgen; try discriminate.
  intros [= -> <-].
  apply _generate_account_key_inv in Hgen as [_ Hfree]. specialize (Hfree Hc).
  rewrite key_free_forall in Hfree.
  rewrite get_account_by_key_first_match. unfold first_match.
  cbn [manager _df]. rewrite concat_two, of_records_one. cbn [pd.rows pd.columns].
  rewrite bool_decide_eq_true_2 by (apply elem_of_union_columns; by left).
  rewrite find_app_miss
    by (intros row Hrow; apply py_eq_VStr_false; by apply Hfree).
  set (record := new_record key t n fn p an cur h opt).
  assert (∀ c v, c ∈ record.*1 → pd.cell (list_to_map record) c = v →
          ∀ d, pd.Series_get
                 {| pd.index := pd.union_columns (pd.columns (_df (manager st)))
                                  record.*1;
                    pd.data := list_to_map record |} c d = v) as Hget.
  { intros c v Hin Hv d. unfold pd.Series_get. cbn [pd.index pd.data].
    rewrite bool_decide_eq_true_2; [done|].
    apply elem_of_union_columns. by right. }
  assert (∀ c v, (c, v) ∈ [("account_key", VStr key); ("parent_key", VStr p);
              ("type", VStr t); ("name", VStr n); ("full_name", VStr fn);
              ("account_number", VStr an); ("currency", VStr cur);
              ("hidden", VBool h)] →
          c ∈ record.*1 ∧ pd.cell (list_to_map record) c = v) as Hreq
    by apply new_record_required.
  cbn [List.find].
  destruct (Hreq "account_key" (VStr key)) as [_ Hkey]; [left|].
  rewrite Hkey. cbn [py_eq]. rewrite bool_decide_eq_true_2 by done.
  eexists. split; [reflexivity|]. split.
  - intros d.
    repeat split;
      (eapply Hget; eapply Hreq; repeat (first [left | right])).
  - intros field v d Hfield Hv.
    destruct (new_record_optional key t n fn p an cur h opt field v Hfield Hv)
      as [Hin Hcell].
    by apply Hget.
Qed.

Lemma create_then_get_witness :
  ∃ account,
    get_account_by_key (manager cash_state) (VStr "ABCDE") = Return (Some account)
    ∧ pd.Series_get account "type" NaN = VStr "ASSET"
    ∧ pd.Series_get account "name" NaN = VStr "Cash".
Proof.
  destruct (create_then_get 1 "ASSET" "Cash" "Assets:Cash" "" "" "EUR" false ∅
              fresh_state "ABCDE" cash_state) as (account & Hget & Hreq & _).
  - apply (bool_decide_unpack _). vm_compute. exact I.
  - vm_compute. reflexivity.
  - exists account. split; [exact Hget|].
    destruct (Hreq NaN) as (_ & _ & Htype & Hname & _). split; assumption.
Defined.

(** ** Paths *)

Lemma get_account_path_loop_step fuel self path key depth :
  get_account_path_loop (S fuel) self path key depth
  = if truthy key && (depth <? max_depth)%nat
    then match first_match self key with
         | None => Return path
         | Some account =>
             get_account_path_loop fuel self (key :: path)
               (pd.Series_get account "parent_key" (VStr "")) (S depth)
         end
    else Return path.
Proof.
  cbn [get_account_path_loop]. by rewrite get_account_by_key_first_match.
Qed.

Lemma ancestors_length n self key : (length (ancestors n self key) ≤ n)%nat.
Proof.
  revert key. induction n as [|n IH]; intros key; cbn [ancestors]; [done|].
  destruct (truthy key); [|simpl; lia].
  destruct (first_match self key); simpl; [|lia].
  specialize (IH (pd.Series_get s "parent_key" (VStr ""))). lia.
Qed.

Lemma ancestors_falsy n self key : truthy key = false → ancestors n self key = [].
Proof. intros Hk. destruct n; cbn [ancestors]; [done|]. by rewrite Hk. Qed.

(** With fuel for the tests that remain, the loop returns what it had
    with the ancestors still in reach put in front, root-most first. *)
Lemma get_account_path_loop_ancestors fuel self path key depth :
  depth ≤ max_depth →
  max_depth - depth < fuel →
  get_account_path_loop fuel self path key depth
  = Return (rev (ancestors (max_depth - depth) self key) ++ path)%list.
Proof.
  revert path key depth.
  induction fuel as [|fuel IH]; intros path key depth Hd Hfuel; [lia|].
  rewrite get_account_path_loop_step.
  destruct (truthy key) eqn:Hkey; cbn [andb];
    [|by rewrite ancestors_falsy].
  destruct (Nat.ltb_spec depth max_depth) as [Hlt|Hge].
  - replace (max_depth - depth) with (S (max_depth - S depth)) by lia.
    cbn [ancestors]. rewrite Hkey.
    destruct (first_match self key) as [account|]; [|done].
    rewrite IH by lia. cbn [rev]. by rewrite <- app_assoc.
  - replace (max_depth - depth) with 0 by lia. done.
Qed.

(** C7: [get_account_path] returns for every store, cyclic or not, and
    every starting key once the fuel exceeds the hop bound: the loop
    tests its condition at most [max_depth + 1 = 101] times.  The path
    has at most 100 keys and is the walk cut at 100 accounts, root-most
    first; reaching the bound gives that partial path, not an error. *)
Theorem get_account_path_terminates fuel self (key : Value) :
  max_depth < fuel →
  ∃ path, get_account_path fuel self key = Return path
          ∧ (length path ≤ 100)%nat
          ∧ path = rev (ancestors 100 self key).
Proof.
  intros Hfuel. exists (rev (ancestors max_depth self key)).
  split; [|split].
  - unfold get_account_path.
    rewrite get_account_path_loop_ancestors by lia.
    by rewrite Nat.sub_0_r, app_nil_r.
  - rewrite length_rev. apply ancestors_length.
  - reflexivity.
Qed.

Lemma get_account_path_terminates_witness :
  ∃ path, get_account_path 101 cyclic (VStr "AAAAA") = Return path
          ∧ (length path ≤ 100)%nat
          ∧ path = rev (ancestors 100 cyclic (VStr "AAAAA")).
Proof.
  apply get_account_path_terminates. unfold max_depth. lia.
Defined.

(** On the two-account cycle the walk stops at the bound with 100 keys;
    one test of the condition fewer and the loop is still running. *)
Example get_account_path_cyclic :
  get_account_path 101 cyclic (VStr "AAAAA")
  = Return (mjoin (replicate 50 [VStr "BBBBB"; VStr "AAAAA"]))
  ∧ get_account_path 100 cyclic (VStr "AAAAA") = OutOfFuel.
Proof. split; vm_compute; reflexivity. Qed.

(** C6: the path is root-first.  For an account with key [A] (keys are
    non-empty) whose [parent_key] is empty the path is [[A]]; for a chain
    where [A] is such a root, [B] has parent [A] and [C] has parent [B],
    the path of [C] is [[A; B; C]].  The walk needs one test of the
    loop condition per account and one more. *)
Theorem get_account_path_root_first fuel self :
  3 < fuel →
  (∀ (A : string) a,
     A ≠ "" →
     get_account_by_key self (VStr A) = Return (Some a) →
     pd.Series_get a "parent_key" (VStr "") = VStr "" →
     get_account_path fuel self (VStr A) = Return [VStr A])
  ∧ (∀ (A B C : string) a b c,
       A ≠ "" → B ≠ "" → C ≠ "" →
       get_account_by_key self (VStr A) = Return (Some a) →
       pd.Series_get a "parent_key" (VStr "") = VStr "" →
       get_account_by_key self (VStr B) = Return (Some b) →
       pd.Series_get b "parent_key" (VStr "") = VStr A →
       get_account_by_key self (VStr C) = Return (Some c) →
       pd.Series_get c "parent_key" (VStr "") = VStr B →
       get_account_path fuel self (VStr C) = Return [VStr A; VStr B; VStr C]).
Proof.
  intros Hfuel.
  assert (∀ k : string, k ≠ "" → truthy (VStr k) = true) as Htruthy.
  { intros k Hk. simpl. by rewrite bool_decide_eq_false_2. }
  assert (∀ d, d < 4 → (d <? max_depth)%nat = true) as Hdepth.
  { intros d Hd. apply Nat.ltb_lt. unfold max_depth. lia. }
  destruct fuel as [|[|[|[|fuel]]]]; try lia.
  split.
  - intros A a HA Ha Hroot.
    rewrite get_account_by_key_first_match in Ha. injection Ha as Ha.
    unfold get_account_path.
    rewrite get_account_path_loop_step, Htruthy, Hdepth, Ha, Hroot by (done || lia).
    by rewrite get_account_path_loop_step.
  - intros A B C a b c HA HB HC Ha Hroot Hb HbA Hc HcB.
    rewrite get_account_by_key_first_match in Ha, Hb, Hc.
    injection Ha as Ha. injection Hb as Hb. injection Hc as Hc.
    unfold get_account_path.
    rewrite get_account_path_loop_step, Htruthy, Hdepth, Hc, HcB by (done || lia).
    cbn [andb].
    rewrite get_account_path_loop_step, Htruthy, Hdepth, Hb, HbA by (done || lia).
    cbn [andb].
    rewrite get_account_path_loop_step, Htruthy, Hdepth, Ha, Hroot by (done || lia).
    by rewrite get_account_path_loop_step.
Qed.

Lemma get_account_path_root_first_witness :
  get_account_path 4 (manager savings_state) (VStr "ABCDE") = Return [VStr "ABCDE"]
  ∧ get_account_path 4 (manager savings_state) (VStr "KLMNO")
    = Return [VStr "ABCDE"; VStr "FGHIJ"; VStr "KLMNO"].
Proof.
  destruct (get_account_path_root_first 4 (manager savings_state)) as [Hroot Hchain];
    [lia|].
  split.
  - eapply Hroot; [discriminate | vm_compute; reflexivity | vm_compute; reflexivity].
  - eapply (Hchain "ABCDE" "FGHIJ" "KLMNO");
      first [discriminate | vm_compute; reflexivity].
Defined.

(** ** Queries leave the state alone *)

Lemma reading_state {A} (f : AccountManager → Outcome A) (g : A → Result) st :
  ((a ← reading f; (mret (g a) : M Result)) st).2 = st.
Proof.
  unfold reading, mbind, M_bind, get_self, lift, mret, M_ret.
  by destruct (f (manager st)).
Qed.

Lemma run_query_state fuel c st : is_query c = true → (run fuel c st).2 = st.
Proof.
  destruct c; try discriminate; intros _; cbn [run]; apply reading_state.
Qed.

Lemma first_match_miss self key :
  key_free self key → first_match self (VStr key) = None.
Proof.
  intros Hfree. unfold first_match. case_bool_decide; [|done].
  replace (List.find _ _) with (@None (gmap string Value)); [done|].
  symmetry. apply find_none_iff. intros row Hrow. apply py_eq_VStr_false.
  revert row Hrow. by apply key_free_forall.
Qed.

(** Each query method, run on a state, gives what the function of
    [self] above gives on the manager, and hands the state on. *)
Lemma Method_get_account_by_key_run key st :
  Method.get_account_by_key key st = (get_account_by_key (manager st) key, st).
Proof.
  unfold Method.get_account_by_key, get_account_by_key.
  unfold mbind at 1. unfold M_bind, get_df. cbn [fst snd].
  destruct (negb (bool_decide _)); [reflexivity|].
  unfold mbind, M_bind, Outcome_bind, lift, mret, M_ret.
  destruct (pd.getitem _ _) as [col| |]; [|reflexivity..].
  destruct (0 <? _)%nat; [|reflexivity].
  by destruct (pd.iloc _ 0).
Qed.

Lemma Method_get_children_run parent_key st :
  Method.get_children parent_key st = (get_children (manager st) parent_key, st).
Proof.
  unfold Method.get_children, get_children.
  unfold mbind at 1. unfold M_bind, get_df. cbn [fst snd].
  destruct (negb (bool_decide _)); [reflexivity|].
  unfold mbind, M_bind, Outcome_bind, lift, mret, M_ret.
  by destruct (pd.getitem _ _).
Qed.

Lemma Method_get_root_accounts_run st :
  Method.get_root_accounts st = (get_root_accounts (manager st), st).
Proof. apply (Method_get_children_run (VStr "")). Qed.

Lemma Method_get_account_path_loop_run fuel path key depth st :
  Method.get_account_path_loop fuel path key depth st
  = (get_account_path_loop fuel (manager st) path key depth, st).
Proof.
  revert path key depth. induction fuel as [|fuel IH]; intros path key depth;
    cbn [Method.get_account_path_loop get_account_path_loop]; [reflexivity|].
  destruct (truthy key && (depth <? max_depth)%nat); [|reflexivity].
  unfold mbind at 1. unfold M_bind. rewrite Method_get_account_by_key_run.
  destruct (get_account_by_key (manager st) key) as [[account|]| |];
    cbn [mbind Outcome_bind]; try reflexivity.
  apply IH.
Qed.

Lemma Method_get_all_accounts_run st :
  Method.get_all_accounts st = (get_all_accounts (manager st), st).
Proof. reflexivity. Qed.

(** The monad can tell a write: [create_account] leaves another state. *)
Example create_account_writes :
  manager (create_account 1 "ASSET" "Cash" "Assets:Cash" "" "" "EUR" false ∅
             fresh_state).2
  ≠ manager fresh_state.
Proof.
  intros H. apply (f_equal (λ self, pd.len (_df self))) in H.
  vm_compute in H. discriminate.
Qed.

(** C10: the five queries are read-only.  Each method, run as the
    statements of its body on any state with any argument and any fuel,
    ends in the state it started in (the frame, and the generator),
    whether it returns or its loop is still running; and
    [get_account_path] on a key that no stored account has returns the
    empty path, the state unchanged. *)
Theorem queries_are_read_only fuel (account_key parent_key : Value) st :
  (Method.get_account_by_key account_key st).2 = st
  ∧ (Method.get_children parent_key st).2 = st
  ∧ (Method.get_root_accounts st).2 = st
  ∧ (Method.get_account_path fuel account_key st).2 = st
  ∧ (Method.get_all_accounts st).2 = st
  ∧ (∀ key : string, 0 < fuel → key_free (manager st) key →
       Method.get_account_path fuel (VStr key) st = (Return [], st)).
Proof.
  unfold Method.get_account_path.
  rewrite Method_get_account_by_key_run, Method_get_children_run,
    Method_get_root_accounts_run, Method_get_account_path_loop_run,
    Method_get_all_accounts_run.
  repeat (split; [reflexivity|]).
  intros key Hfuel Hfree. rewrite Method_get_account_path_loop_run. f_equal.
  destruct fuel as [|fuel]; [lia|].
  rewrite get_account_path_loop_step, first_match_miss by done.
  by destruct (truthy (VStr key) && (0 <? max_depth)).
Qed.

Lemma queries_are_read_only_witness :
  (Method.get_children (VStr "ABCDE") checking_state).2 = checking_state
  ∧ Method.get_account_path 101 (VStr "ZZZZZ") checking_state
    = (Return [], checking_state).
Proof.
  destruct (queries_are_read_only 101 (VStr "ZZZZZ") (VStr "ABCDE") checking_state)
    as (_ & Hchildren & _ & _ & _ & Hpath).
  split; [exact Hchildren|].
  apply Hpath; [lia|]. apply (bool_decide_unpack _). vm_compute. exact I.
Defined.

(** ** The parent graph of reachable states *)

Lemma find_app_hit {A} (f : A → bool) (l l' : list A) x :
  List.find f l = Some x → List.find f (l ++ l') = Some x.
Proof.
  induction l as [|a l IH]; [done|]. simpl. by destruct (f a).
Qed.

Lemma frame_of_manager self :
  self = frame_of (pd.columns (_df self)) (pd.rows (_df self)).
Proof. by destruct self as [[cols rows]]. Qed.

Lemma reaches_root_step cols rows n key :
  "account_key" ∈ cols → "parent_key" ∈ cols →
  reaches_root n (frame_of cols rows) key
  = match List.find (λ r, py_eq (pd.cell r "account_key") key) rows with
    | None => false
    | Some r =>
        if bool_decide (pd.cell r "parent_key" = VStr "") then true
        else match n with
             | 0 => false
             | S n' => reaches_root n' (frame_of cols rows) (pd.cell r "parent_key")
             end
    end.
Proof.
  intros Hk Hp.
  destruct n; cbn [reaches_root]; unfold first_match, frame_of;
    cbn [_df pd.columns pd.rows]; rewrite bool_decide_eq_true_2 by done;
    (destruct (List.find _ rows) as [r|]; [|done]); cbn [fmap option_fmap option_map];
    unfold pd.Series_get; cbn [pd.index pd.data];
    rewrite (bool_decide_eq_true_2 ("parent_key" ∈ cols)) by done; reflexivity.
Qed.

Lemma reaches_root_mono cols rows n key :
  "account_key" ∈ cols → "parent_key" ∈ cols →
  reaches_root n (frame_of cols rows) key = true →
  reaches_root (S n) (frame_of cols rows) key = true.
Proof.
  intros Hk Hp. revert key. induction n as [|n IH]; intros key;
    rewrite (reaches_root_step cols rows (S _)), (reaches_root_step cols rows) by done;
    (destruct (List.find _ rows) as [r|]; [|done]);
    (case_bool_decide; [done|]); [done|apply IH].
Qed.

Lemma reaches_root_extend cols rows row n key :
  "account_key" ∈ cols → "parent_key" ∈ cols →
  reaches_root n (frame_of cols rows) key = true →
  reaches_root n (frame_of cols (rows ++ [row])) key = true.
Proof.
  intros Hk Hp. revert key. induction n as [|n IH]; intros key;
    rewrite !reaches_root_step by done;
    (destruct (List.find _ rows) as [r|] eqn:Hfind; [|done]);
    rewrite (find_app_hit _ _ _ _ Hfind);
    (case_bool_decide; [done|]); [done|apply IH].
Qed.

(** Rows in creation order form a forest: the hop bound is their
    number. *)
Lemma hierarchy_acyclic cols rows :
  "account_key" ∈ cols → "parent_key" ∈ cols →
  hierarchy rows →
  acyclic_within (length rows) (frame_of cols rows).
Proof.
  intros Hk Hp Hrows.
  induction Hrows as [|rows row key parent Hrows IH Hkey Hne Hfresh Hparent Hin].
  - intros row Hrow. by apply not_elem_of_nil in Hrow.
  - intros r Hr. cbn [frame_of _df pd.rows] in Hr.
    rewrite length_app, Nat.add_comm. cbn [length Nat.add].
    apply elem_of_app in Hr as [Hr|Hr].
    + destruct (IH r Hr) as [Hreach Hself]. split; [|done].
      by apply reaches_root_mono, reaches_root_extend.
    + apply list_elem_of_singleton in Hr as ->.
      rewrite Hkey, Hparent.
      assert (parent ≠ key) as Hpk.
      { destruct Hin as [->|Hin]; [done|].
        apply Exists_exists in Hin as (r & Hr & Hrkey).
        rewrite Forall_forall in Hfresh. specialize (Hfresh r Hr).
        congruence. }
      split; [|congruence].
      rewrite reaches_root_step by done.
      rewrite find_app_miss
        by (intros r Hr; apply py_eq_VStr_false;
            rewrite Forall_forall in Hfresh; by apply Hfresh).
      cbn [List.find]. rewrite Hkey. cbn [py_eq].
      rewrite bool_decide_eq_true_2 by done. rewrite Hparent.
      case_bool_decide as Hroot; [done|].
      destruct Hin as [->|Hin]; [done|].
      apply Exists_exists in Hin as (r & Hr & Hrkey).
      destruct (IH r Hr) as [Hreach _]. rewrite Hrkey in Hreach.
      by apply reaches_root_extend.
Qed.

Lemma is_account_key_nonempty key : is_account_key key → key ≠ "".
Proof. intros [Hlen _] ->. discriminate. Qed.

Lemma parent_rejected_false self p :
  "account_key" ∈ pd.columns (_df self) →
  parent_rejected self p = false →
  p = "" ∨ Exists (λ r, pd.cell r "account_key" = VStr p) (pd.rows (_df self)).
Proof.
  intros Hc. unfold parent_rejected.
  rewrite bool_decide_eq_true_2, andb_true_r by done. simpl.
  destruct (decide (p = "")) as [->|Hp]; [by left|].
  rewrite bool_decide_eq_false_2 by done. cbn [negb andb].
  rewrite negb_false_iff, existsb_exists. intros (r & Hr & Heq). right.
  apply Exists_exists. exists r. split; [by apply list_elem_of_In|].
  by apply py_eq_VStr.
Qed.

(** A call of a method of [account_manager.py] keeps the rows in
    creation order. *)
Lemma run_in_source_store_ok fuel c st :
  in_source c = true → store_ok (manager st) → store_ok (manager (run fuel c st).2).
Proof.
  intros Hc Hok.
  destruct (is_query c) eqn:Hq; [by rewrite run_query_state|].
  destruct c; try discriminate. clear Hc Hq.
  cbn [run]. unfold mbind at 1. unfold M_bind. rewrite create_account_eq.
  destruct Hok as (Hk & Hp & Hrows).
  destruct (negb (is_valid _)); [done|].
  destruct (parent_rejected _ _) eqn:Hparent; [done|].
  destruct (_generate_account_key _ _ _) as [[key| |] g] eqn:Hgen;
    cbn [snd manager]; [|done..].
  unfold mret, M_ret. cbn [snd manager _df].
  rewrite concat_two, of_records_one. cbn [pd.columns pd.rows].
  apply _generate_account_key_inv in Hgen as [(i & _ & Hdraw) Hfree].
  specialize (Hfree Hk).
  split; [apply elem_of_union_columns; by left|].
  split; [apply elem_of_union_columns; by left|].
  eapply (hierarchy_snoc _ _ key parent_key); try done.
  - eapply new_record_required. left.
  - apply is_account_key_nonempty. subst key. apply nth_draw_is_account_key.
  - eapply new_record_required. right. left.
  - by apply parent_rejected_false.
Qed.

Lemma reachable_in_source_store_ok st :
  reachable in_source st → store_ok (manager st).
Proof.
  induction 1 as [g|st fuel c o st' Hreach IH Hc Hrun Ho].
  - cbn [manager]. repeat split; [apply (bool_decide_unpack _); vm_compute; exact I..|].
    constructor.
  - replace st' with (run fuel c st).2 by (by rewrite Hrun).
    by apply run_in_source_store_ok.
Qed.

(** C4: in every state reached from a new manager by a sequence of
    calls of the methods the class defines ([create_account] and the
    five queries: [in_source] holds of exactly these), the parent graph
    is acyclic: following [parent_key] links from any stored account
    arrives at an account with empty [parent_key] within as many hops as
    there are accounts, and no account's [parent_key] is its own
    [account_key]. *)
Theorem parent_graph_acyclic st :
  reachable in_source st →
  acyclic_within (length (pd.rows (_df (manager st)))) (manager st).
Proof.
  intros Hreach. apply reachable_in_source_store_ok in Hreach as (Hk & Hp & Hrows).
  rewrite (frame_of_manager (manager st)) at 2.
  by apply hierarchy_acyclic.
Qed.

Lemma checking_state_reachable (allowed : Call → bool) :
  allowed (call_create_account "ASSET" "Cash" "Assets:Cash" "" "" "EUR" false ∅)
  = true →
  allowed (call_create_account "BANK" "Checking" "Assets:Cash:Checking" "ABCDE"
             "" "EUR" false {[ "notes" := VStr "main" ]}) = true →
  reachable allowed cash_state ∧ reachable allowed checking_state.
Proof.
  intros Hcash Hchecking.
  assert (reachable allowed cash_state) as Hreach.
  { eapply (reachable_run allowed fresh_state 1 _ (Return (result_key "ABCDE")));
      [apply reachable_init | exact Hcash | vm_compute; reflexivity | discriminate]. }
  split; [exact Hreach|].
  eapply (reachable_run allowed cash_state 1 _ (Return (result_key "FGHIJ")));
    [exact Hreach | exact Hchecking | vm_compute; reflexivity | discriminate].
Defined.

Lemma parent_graph_acyclic_witness :
  acyclic_within (length (pd.rows (_df (manager checking_state))))
    (manager checking_state).
Proof.
  apply parent_graph_acyclic.
  apply (checking_state_reachable in_source); reflexivity.
Defined.

(** A remark on the spec.  [update_account] and [delete_account] are
    not methods of the class; as the spec words them, the first can make
    an account its own parent and the second can leave a child whose
    parent is gone, from which no root is reached in any number of
    hops.  The invariant above is one of [create_account], not of those
    two. *)
Lemma parent_graph_not_acyclic_with_update_delete :
  (reachable any_call looped_state
   ∧ ∀ bound, ¬ acyclic_within bound (manager looped_state))
  ∧ (reachable any_call orphaned_state
     ∧ ∀ bound, ¬ acyclic_within bound (manager orphaned_state)).
Proof.
  destruct (checking_state_reachable any_call eq_refl eq_refl) as [Hcash Hchecking].
  split; split.
  - apply (reachable_run any_call cash_state 0
             (call_update_account "ABCDE" {[ "parent_key" := VStr "ABCDE" ]})
             (Return (result_bool true)));
      [exact Hcash | reflexivity | vm_compute; reflexivity | discriminate].
  - intros bound Hacyclic.
    assert (∃ row, pd.rows (_df (manager looped_state)) = [row]
                   ∧ pd.cell row "parent_key" = pd.cell row "account_key")
      as (row & Hrows & Hself).
    { eexists. split; vm_compute; reflexivity. }
    destruct (Hacyclic row) as [_ Hne]; [rewrite Hrows; left|]. by apply Hne.
  - apply (reachable_run any_call checking_state 0 (call_delete_account "ABCDE")
             (Return (result_bool true)));
      [exact Hchecking | reflexivity | vm_compute; reflexivity | discriminate].
  - intros bound Hacyclic.
    assert (∃ row, pd.rows (_df (manager orphaned_state)) = [row]
                   ∧ pd.cell row "account_key" = VStr "FGHIJ")
      as (row & Hrows & Hkey).
    { eexists. split; vm_compute; reflexivity. }
    destruct (Hacyclic row) as [Hreach _]; [rewrite Hrows; left|].
    rewrite Hkey in Hreach.
    assert (reaches_root bound (manager orphaned_state) (VStr "FGHIJ") = false)
      as Hfalse by (destruct bound as [|[|bound]]; vm_compute; reflexivity).
    congruence.
Qed.

(** ** Invariants of the store *)

Lemma optional_keys_among (optional_fields : gmap string Value) fields d c :
  c ∈ (foldl (add_optional optional_fields) d fields).*1 → c ∈ d.*1 ∨ c ∈ fields.
Proof.
  revert d. induction fields as [|f fields IH]; intros d; cbn [foldl]; [by left|].
  intros Hc. apply IH in Hc as [Hc|Hc]; [|right; by right].
  unfold add_optional in Hc. destruct (optional_fields !! f); [|by left].
  apply dict_setitem_keys in Hc as [->|Hc]; [right; left|by left].
Qed.

Lemma new_record_keys key t n fn p an cur h (opt : gmap string Value) c :
  c ∈ (new_record key t n fn p an cur h opt).*1 →
  c ∈ REQUIRED_COLUMNS ++ OPTIONAL_COLUMNS.
Proof.
  unfold new_record. intros Hc. apply optional_keys_among in Hc.
  apply elem_of_app. destruct Hc as [Hc|Hc]; [left; exact Hc|by right].
Qed.

Lemma union_columns_subset (a b : list string) :
  (∀ c, c ∈ b → c ∈ a) → pd.union_columns a b = a.
Proof.
  intros Hsub. unfold pd.union_columns.
  replace (filter (λ c, c ∉ a) b) with (@nil string); [by rewrite app_nil_r|].
  symmetry. induction b as [|c b IH]; [done|].
  rewrite filter_cons_False by (intros Hc; apply Hc, Hsub; left).
  apply IH. intros c' Hc'. apply Hsub. by right.
Qed.

(** What a returning [create_account] does to the frame. *)
Lemma create_account_returns_inv fuel t n fn p an cur h opt st key st' :
  create_account fuel t n fn p an cur h opt st = (Return key, st') →
  is_valid t = true
  ∧ parent_rejected (manager st) p = false
  ∧ (∃ i, i < fuel ∧ key = nth_draw i (random_state st))
  ∧ ("account_key" ∈ pd.columns (_df (manager st)) → key_free (manager st) key)
  ∧ _df (manager st')
    = {| pd.columns := pd.union_columns (pd.columns (_df (manager st)))
                         (new_record key t n fn p an cur h opt).*1;
         pd.rows := pd.rows (_df (manager st))
                    ++ [list_to_map (new_record key t n fn p an cur h opt)] |}.
Proof.
  rewrite create_account_eq.
  destruct (is_valid t); cbn [negb]; [|discriminate].
  destruct (parent_rejected _ _); [discriminate|].
  destruct (_generate_account_key _ _ _) as [[k| |] g] eqn:Hgen; try discriminate.
  intros [= -> <-]. apply _generate_account_key_inv in Hgen as [Hdraw Hfree].
  cbn [manager _df]. by rewrite concat_two, of_records_one.
Qed.

Lemma key_free_not_in_keys self key :
  key_free self key ↔ VStr key ∉ account_keys self.
Proof.
  rewrite key_free_forall. unfold account_keys. rewrite list_elem_of_fmap.
  split.
  - intros H (r & Heq & Hr). by apply (H r).
  - intros H r Hr Heq. apply H. by exists r.
Qed.

Lemma create_account_wellformed fuel t n fn p an cur h opt st key st' :
  wellformed (manager st) →
  create_account fuel t n fn p an cur h opt st = (Return key, st') →
  wellformed (manager st').
Proof.
  intros (Hcols & Hnodup & Hkeys & Htypes & Hparents) Hcreate.
  assert ("account_key" ∈ pd.columns (_df (manager st))) as Hk
    by (rewrite Hcols; apply (bool_decide_unpack _); vm_compute; exact I).
  apply create_account_returns_inv in Hcreate
    as (Ht & Hp & (i & _ & Hdraw) & Hfree & Hdf).
  specialize (Hfree Hk).
  set (record := new_record key t n fn p an cur h opt) in *.
  assert (∀ c v, (c, v) ∈ [("account_key", VStr key); ("parent_key", VStr p);
              ("type", VStr t); ("name", VStr n); ("full_name", VStr fn);
              ("account_number", VStr an); ("currency", VStr cur);
              ("hidden", VBool h)] →
          c ∈ record.*1 ∧ pd.cell (list_to_map record) c = v) as Hreq
    by apply new_record_required.
  destruct (Hreq "account_key" (VStr key)) as [_ Hckey]; [left|].
  destruct (Hreq "parent_key" (VStr p)) as [_ Hcparent]; [right; left|].
  destruct (Hreq "type" (VStr t)) as [_ Hctype]; [do 2 right; left|].
  unfold wellformed, account_keys. rewrite Hdf. cbn [pd.columns pd.rows].
  rewrite fmap_app. cbn [fmap list_fmap]. rewrite Hckey.
  fold (account_keys (manager st)).
  split; [|split; [|split; [|split]]].
  - rewrite union_columns_subset; [done|].
    intros c Hc. rewrite Hcols. by eapply new_record_keys.
  - apply NoDup_app. split; [done|]. split; [|apply NoDup_singleton].
    intros v Hv Hin. apply list_elem_of_singleton in Hin as ->.
    by apply key_free_not_in_keys in Hfree.
  - apply Forall_app. split; [done|]. apply Forall_singleton.
    exists key. split; [done|]. subst key. apply nth_draw_is_account_key.
  - apply Forall_app. split; [done|]. apply Forall_singleton. by exists t.
  - apply Forall_app. split.
    + eapply Forall_impl; [exact Hparents|]. intros r [Hr|Hr]; [by left|right].
      apply elem_of_app. by left.
    + apply Forall_singleton. rewrite Hcparent.
      apply parent_rejected_false in Hp as [->|Hin]; [by left| |done].
      right. apply elem_of_app. left. apply Exists_exists in Hin as (r & Hr & Hrk).
      unfold account_keys. apply list_elem_of_fmap. by exists r.
Qed.

Lemma __init___wellformed : wellformed __init__.
Proof.
  unfold wellformed, account_keys. cbn. repeat split; constructor.
Qed.

Lemma run_in_source_wellformed fuel c st :
  in_source c = true → wellformed (manager st) →
  wellformed (manager (run fuel c st).2).
Proof.
  intros Hc Hok.
  destruct (is_query c) eqn:Hq; [by rewrite run_query_state|].
  destruct c; try discriminate. clear Hc Hq. cbn [run].
  unfold mbind at 1. unfold M_bind.
  destruct (create_account _ _ _ _ _ _ _ _ _ st) as [[key| |] st'] eqn:Hcreate.
  - unfold mret, M_ret. cbn [snd]. by eapply create_account_wellformed.
  - rewrite create_account_eq in Hcreate.
    destruct (negb (is_valid _)); [by injection Hcreate as _ <-|].
    destruct (parent_rejected _ _); [by injection Hcreate as _ <-|].
    destruct (_generate_account_key _ _ _) as [[k| |] g]; try discriminate.
    by injection Hcreate as _ <-.
  - rewrite create_account_eq in Hcreate.
    destruct (negb (is_valid _)); [discriminate|].
    destruct (parent_rejected _ _); [discriminate|].
    destruct (_generate_account_key _ _ _) as [[k| |] g]; try discriminate.
    by injection Hcreate as <-.
Qed.

Lemma reachable_in_source_wellformed st :
  reachable in_source st → wellformed (manager st).
Proof.
  induction 1 as [g|st fuel c o st' Hreach IH Hc Hrun Ho].
  - apply __init___wellformed.
  - replace st' with (run fuel c st).2 by (by rewrite Hrun).
    by apply run_in_source_wellformed.
Qed.

(** ** Further properties of the enumeration and the queries *)

(** X1: the string of an [AccountType] member is a valid type and looks
    up to that member again; different members have different strings;
    [get_all_values] lists the valid strings, each once. *)
Theorem AccountType_value_round_trip :
  (∀ t, _value2member_map_ !! value t = Some t ∧ is_valid (value t) = true)
  ∧ (∀ t t', value t = value t' → t = t')
  ∧ NoDup get_all_values
  ∧ (∀ v, is_valid v = true ↔ v ∈ get_all_values).
Proof.
  split; [|split; [|split]].
  - intros t. destruct t; split; vm_compute; reflexivity.
  - intros t t' Heq. destruct t, t'; (reflexivity || discriminate).
  - apply (bool_decide_unpack _). vm_compute. exact I.
  - apply is_valid_iff.
Qed.

Lemma find_hit {A} (f : A → bool) (l : list A) x :
  List.find f l = Some x → x ∈ l ∧ f x = true.
Proof.
  intros Hfind. apply List.find_some in Hfind as [Hin Hf].
  split; [by apply list_elem_of_In|done].
Qed.

(** X2: on a frame with the key column, [get_account_by_key] returns
    [None] exactly when no stored account has the key; a record it
    returns is a stored row, indexed by the frame's columns, whose
    [account_key] is the key asked for. *)
Theorem get_account_by_key_hit self (key : string) :
  "account_key" ∈ pd.columns (_df self) →
  (get_account_by_key self (VStr key) = Return None ↔ key_free self key)
  ∧ (∀ account,
       get_account_by_key self (VStr key) = Return (Some account) →
       pd.data account ∈ pd.rows (_df self)
       ∧ pd.index account = pd.columns (_df self)
       ∧ ∀ d, pd.Series_get account "account_key" d = VStr key).
Proof.
  intros Hc. rewrite get_account_by_key_first_match. unfold first_match.
  rewrite bool_decide_eq_true_2 by done. split.
  - rewrite key_free_forall. split.
    + intros [= Hnone]. destruct (List.find _ _) eqn:Hfind; [discriminate|].
      intros row Hrow. apply py_eq_VStr_false. revert row Hrow.
      by apply find_none_iff.
    + intros Hfree. f_equal.
      replace (List.find _ _) with (@None (gmap string Value)); [done|].
      symmetry. apply find_none_iff. intros row Hrow.
      apply py_eq_VStr_false. by apply Hfree.
  - intros account [= Hsome].
    destruct (List.find _ _) as [r|] eqn:Hfind; [|discriminate].
    injection Hsome as <-. apply find_hit in Hfind as [Hin Hkey].
    apply py_eq_VStr in Hkey. cbn [pd.data pd.index].
    split; [done|]. split; [done|]. intros d. unfold pd.Series_get.
    cbn [pd.data pd.index]. by rewrite bool_decide_eq_true_2.
Qed.

Lemma get_account_by_key_hit_witness :
  (get_account_by_key (manager checking_state) (VStr "ZZZZZ") = Return None
   ↔ key_free (manager checking_state) "ZZZZZ")
  ∧ (∀ account,
       get_account_by_key (manager checking_state) (VStr "FGHIJ")
       = Return (Some account) →
       pd.data account ∈ pd.rows (_df (manager checking_state))
       ∧ pd.index account = pd.columns (_df (manager checking_state))
       ∧ ∀ d, pd.Series_get account "account_key" d = VStr "FGHIJ").
Proof.
  assert ("account_key" ∈ pd.columns (_df (manager checking_state))) as Hc
    by (apply (bool_decide_unpack _); vm_compute; exact I).
  split.
  - apply (get_account_by_key_hit (manager checking_state) "ZZZZZ" Hc).
  - apply (get_account_by_key_hit (manager checking_state) "FGHIJ" Hc).
Defined.

(** X3: on a frame with the parent column, [get_children] returns a
    frame with the store's columns whose rows are the stored rows with
    that [parent_key], and only those, in store order. *)
Theorem get_children_rows self (parent_key : string) :
  "parent_key" ∈ pd.columns (_df self) →
  ∃ df, get_children self (VStr parent_key) = Return df
        ∧ pd.columns df = pd.columns (_df self)
        ∧ (∀ row, row ∈ pd.rows df
                  ↔ row ∈ pd.rows (_df self)
                    ∧ pd.cell row "parent_key" = VStr parent_key)
        ∧ pd.rows df `sublist_of` pd.rows (_df self).
Proof.
  intros Hc. eexists. split; [apply children_rows|].
  rewrite bool_decide_eq_true_2 by done. cbn [pd.columns pd.rows].
  rewrite filter_py_eq_VStr. split; [done|]. split.
  - intros row. rewrite list_elem_of_filter. tauto.
  - apply sublist_filter.
Qed.

Lemma get_children_rows_witness :
  ∃ df, get_children (manager savings_state) (VStr "ABCDE") = Return df
        ∧ pd.columns df = pd.columns (_df (manager savings_state))
        ∧ (∀ row, row ∈ pd.rows df
                  ↔ row ∈ pd.rows (_df (manager savings_state))
                    ∧ pd.cell row "parent_key" = VStr "ABCDE")
        ∧ pd.rows df `sublist_of` pd.rows (_df (manager savings_state)).
Proof.
  apply get_children_rows. apply (bool_decide_unpack _). vm_compute. exact I.
Defined.

(** X4: in every state reached from a new manager through the methods
    of the class, the stored keys are pairwise distinct and each is five
    upper-case letters. *)
Theorem reachable_keys_unique st :
  reachable in_source st →
  NoDup (account_keys (manager st))
  ∧ Forall (λ r, ∃ key, pd.cell r "account_key" = VStr key ∧ is_account_key key)
      (pd.rows (_df (manager st))).
Proof.
  intros Hreach. apply reachable_in_source_wellformed in Hreach.
  destruct Hreach as (_ & Hnodup & Hkeys & _). by split.
Qed.

Lemma reachable_keys_unique_witness :
  NoDup (account_keys (manager checking_state))
  ∧ Forall (λ r, ∃ key, pd.cell r "account_key" = VStr key ∧ is_account_key key)
      (pd.rows (_df (manager checking_state))).
Proof.
  apply reachable_keys_unique.
  apply (checking_state_reachable in_source); reflexivity.
Defined.

(** X5: in every such state each stored account's [parent_key] is the
    empty string or a key that [get_account_by_key] finds: creation
    leaves no dangling parent. *)
Theorem reachable_parents_resolve st :
  reachable in_source st →
  ∀ row, row ∈ pd.rows (_df (manager st)) →
    ∃ parent, pd.cell row "parent_key" = VStr parent
              ∧ (parent = ""
                 ∨ ∃ account, get_account_by_key (manager st) (VStr parent)
                              = Return (Some account)).
Proof.
  intros Hreach row Hrow. apply reachable_in_source_wellformed in Hreach.
  destruct Hreach as (Hcols & _ & Hkeys & _ & Hparents).
  rewrite Forall_forall in Hparents. destruct (Hparents row Hrow) as [Hroot|Hin].
  - exists "". split; [done|by left].
  - unfold account_keys in Hin. apply list_elem_of_fmap in Hin as (r & Heq & Hr).
    rewrite Forall_forall in Hkeys. destruct (Hkeys r Hr) as (k & Hk & _).
    exists k. split; [congruence|]. right.
    rewrite get_account_by_key_first_match. unfold first_match.
    rewrite bool_decide_eq_true_2
      by (rewrite Hcols; apply (bool_decide_unpack _); vm_compute; exact I).
    destruct (List.find _ _) as [r'|] eqn:Hfind; [by eexists|].
    exfalso. apply (proj1 (find_none_iff _ _) Hfind r) in Hr.
    apply py_eq_VStr_false in Hr. done.
Qed.

Lemma reachable_parents_resolve_witness :
  ∃ row parent,
    row ∈ pd.rows (_df (manager checking_state))
    ∧ pd.cell row "parent_key" = VStr parent
    ∧ (parent = ""
       ∨ ∃ account, get_account_by_key (manager checking_state) (VStr parent)
                    = Return (Some account)).
Proof.
  assert (default ∅ (head (pd.rows (_df (manager checking_state))))
          ∈ pd.rows (_df (manager checking_state))) as Hrow
    by (apply (bool_decide_unpack _); vm_compute; exact I).
  destruct (reachable_parents_resolve checking_state
              (proj2 (checking_state_reachable in_source eq_refl eq_refl))
              _ Hrow) as (parent & Hparent & Hfound).
  exists (default ∅ (head (pd.rows (_df (manager checking_state))))), parent.
  split; [exact Hrow|]. split; [exact Hparent|exact Hfound].
Defined.

(** X6: in every such state the frame still has exactly the fourteen
    columns [__init__] gave it, and each stored account's [type] is one
    of the eight [AccountType] values. *)
Theorem reachable_columns_and_types st :
  reachable in_source st →
  pd.columns (_df (manager st)) = REQUIRED_COLUMNS ++ OPTIONAL_COLUMNS
  ∧ Forall (λ r, ∃ t, pd.cell r "type" = VStr t ∧ t ∈ get_all_values)
      (pd.rows (_df (manager st))).
Proof.
  intros Hreach. apply reachable_in_source_wellformed in Hreach.
  destruct Hreach as (Hcols & _ & _ & Htypes & _). split; [done|].
  eapply Forall_impl; [exact Htypes|]. intros r (t & Ht & Hvalid).
  exists t. split; [done|]. by apply is_valid_iff.
Qed.

Lemma reachable_columns_and_types_witness :
  pd.columns (_df (manager checking_state)) = REQUIRED_COLUMNS ++ OPTIONAL_COLUMNS
  ∧ Forall (λ r, ∃ t, pd.cell r "type" = VStr t ∧ t ∈ get_all_values)
      (pd.rows (_df (manager checking_state))).
Proof.
  apply reachable_columns_and_types.
  apply (checking_state_reachable in_source); reflexivity.
Defined.

(** ** Further properties of creation *)

Lemma optional_lookup_unsupplied (optional_fields : gmap string Value) fields d c :
  optional_fields !! c = None →
  (list_to_map (foldl (add_optional optional_fields) d fields) : gmap string Value) !! c
  = (list_to_map d : gmap string Value) !! c.
Proof.
  intros Hc. revert d. induction fields as [|f fields IH]; intros d; [done|].
  cbn [foldl]. rewrite IH. unfold add_optional.
  destruct (optional_fields !! f) eqn:Hf; [|done].
  rewrite list_to_map_dict_setitem. apply lookup_insert_ne. congruence.
Qed.

(** The frame a returning [create_account] leaves when the store has the
    fourteen columns: the same columns, one more row. *)
Lemma create_account_frame fuel t n fn p an cur h opt st key st' :
  pd.columns (_df (manager st)) = REQUIRED_COLUMNS ++ OPTIONAL_COLUMNS →
  create_account fuel t n fn p an cur h opt st = (Return key, st') →
  key_free (manager st) key
  ∧ _df (manager st')
    = {| pd.columns := REQUIRED_COLUMNS ++ OPTIONAL_COLUMNS;
         pd.rows := pd.rows (_df (manager st))
                    ++ [list_to_map (new_record key t n fn p an cur h opt)] |}.
Proof.
  intros Hcols Hcreate.
  apply create_account_returns_inv in Hcreate as (_ & _ & _ & Hfree & Hdf).
  split.
  - apply Hfree. rewrite Hcols. apply (bool_decide_unpack _). vm_compute. exact I.
  - rewrite Hdf, Hcols. f_equal. apply union_columns_subset.
    intros c Hc. by eapply new_record_keys.
Qed.

(** X7: what [create_account] does not store.  On a store with the
    fourteen columns, the record read back under the new key has those
    columns as its index; an optional column that was not passed reads
    [NaN]; a name that is no column (such as a keyword argument outside
    [OPTIONAL_COLUMNS]) is not a field of the record, so [get] gives
    its default. *)
Theorem create_account_unsupplied_fields fuel t n fn p an cur h opt st key st' :
  pd.columns (_df (manager st)) = REQUIRED_COLUMNS ++ OPTIONAL_COLUMNS →
  create_account fuel t n fn p an cur h opt st = (Return key, st') →
  ∃ account,
    get_account_by_key (manager st') (VStr key) = Return (Some account)
    ∧ pd.index account = REQUIRED_COLUMNS ++ OPTIONAL_COLUMNS
    ∧ (∀ field d, field ∈ OPTIONAL_COLUMNS → opt !! field = None →
                  pd.Series_get account field d = NaN)
    ∧ (∀ field d, field ∉ REQUIRED_COLUMNS ++ OPTIONAL_COLUMNS →
                  pd.Series_get account field d = d).
Proof.
  intros Hcols Hcreate.
  destruct (create_account_frame _ _ _ _ _ _ _ _ _ _ _ _ Hcols Hcreate)
    as [Hfree Hdf].
  rewrite get_account_by_key_first_match. unfold first_match. rewrite Hdf.
  cbn [pd.columns pd.rows].
  rewrite bool_decide_eq_true_2 by (apply (bool_decide_unpack _); vm_compute; exact I).
  rewrite key_free_forall in Hfree.
  rewrite find_app_miss
    by (intros row Hrow; apply py_eq_VStr_false; by apply Hfree).
  cbn [List.find].
  destruct (new_record_required key t n fn p an cur h opt "account_key" (VStr key))
    as [_ Hkey]; [left|].
  rewrite Hkey. cbn [py_eq]. rewrite bool_decide_eq_true_2 by done.
  eexists. split; [reflexivity|]. cbn [pd.index]. split; [done|]. split.
  - intros field d Hfield Hnone. unfold pd.Series_get. cbn [pd.index pd.data].
    rewrite bool_decide_eq_true_2 by (apply elem_of_app; by right).
    unfold pd.cell, new_record. rewrite optional_lookup_unsupplied by done.
    unfold OPTIONAL_COLUMNS in Hfield.
    repeat (apply elem_of_cons in Hfield as [->|Hfield]; [reflexivity|]).
    by apply not_elem_of_nil in Hfield.
  - intros field d Hfield. unfold pd.Series_get. cbn [pd.index].
    by rewrite bool_decide_eq_false_2.
Qed.

Lemma create_account_unsupplied_fields_witness :
  ∃ account,
    get_account_by_key (manager cash_state) (VStr "ABCDE") = Return (Some account)
    ∧ pd.index account = REQUIRED_COLUMNS ++ OPTIONAL_COLUMNS
    ∧ (∀ field d, field ∈ OPTIONAL_COLUMNS → (∅ : gmap string Value) !! field = None →
                  pd.Series_get account field d = NaN)
    ∧ (∀ field d, field ∉ REQUIRED_COLUMNS ++ OPTIONAL_COLUMNS →
                  pd.Series_get account field d = d).
Proof.
  apply (create_account_unsupplied_fields 1 "ASSET" "Cash" "Assets:Cash" "" ""
           "EUR" false ∅ fresh_state "ABCDE" cash_state).
  - reflexivity.
  - vm_compute. reflexivity.
Defined.

(** X8: creating an account does not disturb the others.  On a store
    with the fourteen columns, after [create_account] returns a key,
    [get_account_by_key] gives for every other key what it gave before
    the call. *)
Theorem create_account_keeps_other_accounts
    fuel t n fn p an cur h opt st key st' (other : Value) :
  pd.columns (_df (manager st)) = REQUIRED_COLUMNS ++ OPTIONAL_COLUMNS →
  create_account fuel t n fn p an cur h opt st = (Return key, st') →
  other ≠ VStr key →
  get_account_by_key (manager st') other = get_account_by_key (manager st) other.
Proof.
  intros Hcols Hcreate Hother.
  destruct (create_account_frame _ _ _ _ _ _ _ _ _ _ _ _ Hcols Hcreate)
    as [_ Hdf].
  rewrite !get_account_by_key_first_match. unfold first_match.
  rewrite Hdf, Hcols. cbn [pd.columns pd.rows]. f_equal.
  case_bool_decide; [|done]. f_equal.
  destruct (List.find _ (pd.rows (_df (manager st)))) as [r|] eqn:Hfind.
  - by apply find_app_hit.
  - rewrite find_app_miss by (by apply find_none_iff). cbn [List.find].
    destruct (new_record_required key t n fn p an cur h opt "account_key" (VStr key))
      as [_ Hkey]; [left|].
    rewrite Hkey. destruct other as [s| |]; cbn [py_eq]; try done.
    rewrite bool_decide_eq_false_2; [done|congruence].
Qed.

Lemma create_account_keeps_other_accounts_witness :
  get_account_by_key (manager checking_state) (VStr "ABCDE")
  = get_account_by_key (manager cash_state) (VStr "ABCDE").
Proof.
  apply (create_account_keeps_other_accounts 1 "BANK" "Checking"
           "Assets:Cash:Checking" "ABCDE" "" "EUR" false
           {[ "notes" := VStr "main" ]} cash_state "FGHIJ" checking_state).
  - vm_compute. reflexivity.
  - vm_compute. reflexivity.
  - discriminate.
Defined.

(** X9: a new account shows up among its parent's children, last.  On a
    frame with the parent column, after [create_account] with
    [parent_key] returns a key, [get_children(parent_key)] has the rows
    it had before followed by the new account's row, and the children of
    every other parent are the rows they were. *)
Theorem create_account_adds_child fuel t n fn p an cur h opt st key st' :
  "parent_key" ∈ pd.columns (_df (manager st)) →
  create_account fuel t n fn p an cur h opt st = (Return key, st') →
  ∃ before after row,
    get_children (manager st) (VStr p) = Return before
    ∧ get_children (manager st') (VStr p) = Return after
    ∧ pd.rows after = pd.rows before ++ [row]
    ∧ pd.cell row "account_key" = VStr key
    ∧ ∀ q : string, q ≠ p →
        ∃ before' after',
          get_children (manager st) (VStr q) = Return before'
          ∧ get_children (manager st') (VStr q) = Return after'
          ∧ pd.rows after' = pd.rows before'.
Proof.
  intros Hc Hcreate.
  apply create_account_returns_inv in Hcreate as (_ & _ & _ & _ & Hdf).
  destruct (new_record_required key t n fn p an cur h opt "account_key" (VStr key))
    as [_ Hkey]; [left|].
  destruct (new_record_required key t n fn p an cur h opt "parent_key" (VStr p))
    as [_ Hparent]; [right; left|].
  assert ("parent_key" ∈ pd.columns (_df (manager st'))) as Hc'
    by (rewrite Hdf; apply elem_of_union_columns; by left).
  eexists _, _, _.
  split; [apply children_rows|]. split; [apply children_rows|].
  rewrite !bool_decide_eq_true_2 by done. rewrite Hdf. cbn [pd.rows].
  rewrite !filter_py_eq_VStr, filter_app.
  rewrite (filter_cons_True _ _ []) by done. rewrite filter_nil.
  split; [reflexivity|]. split; [exact Hkey|].
  intros q Hq. eexists _, _.
  split; [apply children_rows|]. split; [apply children_rows|].
  rewrite !bool_decide_eq_true_2 by done. rewrite Hdf.
  cbn [pd.rows]. rewrite !filter_py_eq_VStr, filter_app.
  rewrite (filter_cons_False _ _ []) by (rewrite Hparent; congruence).
  by rewrite filter_nil, app_nil_r.
Qed.

Lemma create_account_adds_child_witness :
  ∃ before after row,
    get_children (manager cash_state) (VStr "ABCDE") = Return before
    ∧ get_children (manager checking_state) (VStr "ABCDE") = Return after
    ∧ pd.rows after = pd.rows before ++ [row]
    ∧ pd.cell row "account_key" = VStr "FGHIJ"
    ∧ ∀ q : string, q ≠ "ABCDE" →
        ∃ before' after',
          get_children (manager cash_state) (VStr q) = Return before'
          ∧ get_children (manager checking_state) (VStr q) = Return after'
          ∧ pd.rows after' = pd.rows before'.
Proof.
  apply (create_account_adds_child 1 "BANK" "Checking" "Assets:Cash:Checking"
           "ABCDE" "" "EUR" false {[ "notes" := VStr "main" ]} cash_state
           "FGHIJ" checking_state).
  - apply (bool_decide_unpack _). vm_compute. exact I.
  - vm_compute. reflexivity.
Defined.

Lemma choices_generator population k g :
  tape (choices population k g).2 = tape g
  ∧ cursor (choices population k g).2 = cursor g + k.
Proof.
  revert g. induction k as [|k IH]; intros g; [cbn; split; [done|lia]|].
  cbn [choices]. unfold randbelow.
  specialize (IH {| tape := tape g; cursor := S (cursor g) |}).
  destruct (choices population k _) as [rest g2]. cbn [snd tape cursor] in *.
  destruct IH as [-> ->]. split; [done|lia].
Qed.

Lemma draw_generator g :
  tape (draw g).2 = tape g ∧ cursor (draw g).2 = cursor g + 5.
Proof.
  unfold draw.
  pose proof (choices_generator (String.list_ascii_of_string ascii_uppercase) 5 g) as H.
  by destruct (choices _ 5 g).
Qed.

(** X10: which key the generator settles on.  On a frame with the key
    column, [_generate_account_key] never raises; when it returns, the
    key is the first draw that no stored account has (every earlier draw
    was taken), and the generator has moved on by five random numbers
    per draw; when the loop is still running after [fuel] draws, all of
    them were taken. *)
Theorem _generate_account_key_first_free fuel self g :
  "account_key" ∈ pd.columns (_df self) →
  match _generate_account_key fuel self g with
  | (Return key, g') =>
      ∃ i, i < fuel ∧ key = nth_draw i g ∧ key_free self key
           ∧ (∀ j, j < i → ¬ key_free self (nth_draw j g))
           ∧ tape g' = tape g ∧ cursor g' = cursor g + 5 * S i
  | (Raise _, _) => False
  | (OutOfFuel, _) => ∀ j, j < fuel → ¬ key_free self (nth_draw j g)
  end.
Proof.
  intros Hc. revert g. induction fuel as [|fuel IH]; intros g.
  - cbn. intros j Hj. lia.
  - rewrite _generate_account_key_step by done.
    destruct (decide (key_free self (draw g).1)) as [Hfree|Htaken].
    + exists 0. destruct (draw_generator g) as [Htape Hcursor].
      split; [lia|]. split; [done|]. split; [done|].
      split; [intros j Hj; lia|]. split; [done|lia].
    + specialize (IH (draw g).2). destruct (draw_generator g) as [Htape Hcursor].
      destruct (_generate_account_key fuel self (draw g).2) as [[key|e|] g'].
      * destruct IH as (i & Hi & Hkey & Hfree & Hearlier & Htape' & Hcursor').
        exists (S i). split; [lia|]. split; [done|]. split; [done|].
        split; [|split; [congruence|lia]].
        intros [|j] Hj; [done|]. apply Hearlier. lia.
      * done.
      * intros [|j] Hj; [done|]. apply IH. lia.
Qed.

Lemma _generate_account_key_first_free_witness :
  ∃ i, i < 2 ∧ "BBBBB" = nth_draw i (random_state slow_state)
       ∧ key_free (manager slow_state) "BBBBB"
       ∧ (∀ j, j < i → ¬ key_free (manager slow_state)
                           (nth_draw j (random_state slow_state)))
       ∧ tape {| tape := λ i, i / 10; cursor := 15 |} = tape (random_state slow_state)
       ∧ cursor {| tape := λ i, i / 10; cursor := 15 |}
         = cursor (random_state slow_state) + 5 * S i.
Proof.
  assert ("account_key" ∈ pd.columns (_df (manager slow_state))) as Hc
    by (apply (bool_decide_unpack _); vm_compute; exact I).
  pose proof (_generate_account_key_first_free 2 (manager slow_state)
                (random_state slow_state) Hc) as H.
  assert (_generate_account_key 2 (manager slow_state) (random_state slow_state)
          = (Return "BBBBB", {| tape := λ i, i / 10; cursor := 15 |})) as Hrun
    by (vm_compute; reflexivity).
  rewrite Hrun in H. exact H.
Defined.

(** ** Further properties of paths *)

Lemma rev_reverse {A} (l : list A) : rev l = reverse l.
Proof. unfold reverse. apply rev_alt. Qed.

Lemma ancestors_head n self key a l : ancestors n self key = a :: l → a = key.
Proof.
  destruct n; cbn [ancestors]; [done|].
  destruct (truthy key); [|done].
  destruct (first_match self key); [|done]. by intros [= -> _].
Qed.

Lemma ancestors_nil n self key :
  ancestors (S n) self key = []
  ↔ truthy key = false ∨ first_match self key = None.
Proof.
  cbn [ancestors]. destruct (truthy key); [|by split; [left|]].
  destruct (first_match self key); split; try done.
  - intros [?|?]; done.
  - by right.
Qed.

Lemma ancestors_found n self key :
  Forall (λ k, truthy k = true ∧ is_Some (first_match self k))
    (ancestors n self key).
Proof.
  revert key. induction n as [|n IH]; intros key; cbn [ancestors]; [constructor|].
  destruct (truthy key) eqn:Hkey; [|constructor].
  destruct (first_match self key) as [account|] eqn:Hfind; [|constructor].
  constructor; [|apply IH]. split; [done|]. rewrite Hfind. by eexists.
Qed.

Lemma ancestors_links n self key j child parent :
  ancestors n self key !! j = Some child →
  ancestors n self key !! S j = Some parent →
  ∃ account, first_match self child = Some account
             ∧ pd.Series_get account "parent_key" (VStr "") = parent.
Proof.
  revert key j. induction n as [|n IH]; intros key j; cbn [ancestors]; [done|].
  destruct (truthy key); [|done].
  destruct (first_match self key) as [account|] eqn:Hfind; [|done].
  destruct j as [|j]; cbn [lookup list_lookup].
  - intros [= <-] Hparent. exists account. split; [done|].
    destruct (ancestors n self _) as [|a l] eqn:Hanc; [done|].
    apply ancestors_head in Hanc. cbn in Hparent. congruence.
  - apply IH.
Qed.

(** X11: what a path is made of.  With fuel above the hop bound,
    [get_account_path] returns a path that is empty exactly when the
    starting key is falsy (the empty string) or not stored; otherwise it
    ends with the starting key, every key on it is one
    [get_account_by_key] finds, and each key is the [parent_key] of the
    key that follows it. *)
Theorem get_account_path_keys fuel self (key : Value) :
  max_depth < fuel →
  ∃ path,
    get_account_path fuel self key = Return path
    ∧ (path = [] ↔ truthy key = false ∨ get_account_by_key self key = Return None)
    ∧ (path ≠ [] → last path = Some key)
    ∧ Forall (λ k, ∃ account, get_account_by_key self k = Return (Some account))
        path
    ∧ (∀ i parent child,
         path !! i = Some parent → path !! S i = Some child →
         ∃ account, get_account_by_key self child = Return (Some account)
                    ∧ pd.Series_get account "parent_key" (VStr "") = parent).
Proof.
  intros Hfuel. exists (reverse (ancestors max_depth self key)).
  split; [|split; [|split; [|split]]].
  - unfold get_account_path. rewrite get_account_path_loop_ancestors by lia.
    by rewrite Nat.sub_0_r, app_nil_r, rev_reverse.
  - rewrite get_account_by_key_first_match.
    transitivity (ancestors max_depth self key = []).
    + split; intros H; [|by rewrite H].
      apply (f_equal reverse) in H. by rewrite reverse_involutive in H.
    + change max_depth with (S 99). rewrite ancestors_nil.
      split; (intros [H|H]; [by left|right]); [by f_equal|by injection H].
  - intros Hne. rewrite last_reverse.
    destruct (ancestors max_depth self key) as [|a l] eqn:Hanc; [done|].
    apply ancestors_head in Hanc. by subst.
  - apply Forall_reverse. eapply Forall_impl; [apply ancestors_found|].
    intros k [_ [account Hfind]]. exists account.
    by rewrite get_account_by_key_first_match, Hfind.
  - intros i parent child Hparent Hchild.
    apply reverse_lookup_Some in Hparent as [Hparent Hi].
    apply reverse_lookup_Some in Hchild as [Hchild HSi].
    replace (length (ancestors max_depth self key) - S i)
      with (S (length (ancestors max_depth self key) - S (S i))) in Hparent by lia.
    destruct (ancestors_links _ _ _ _ _ _ Hchild Hparent) as (account & Hfind & Hp).
    exists account. by rewrite get_account_by_key_first_match, Hfind.
Qed.

Lemma get_account_path_keys_witness :
  ∃ path,
    get_account_path 101 (manager savings_state) (VStr "KLMNO") = Return path
    ∧ (path = [] ↔ truthy (VStr "KLMNO") = false
                   ∨ get_account_by_key (manager savings_state) (VStr "KLMNO")
                     = Return None)
    ∧ (path ≠ [] → last path = Some (VStr "KLMNO"))
    ∧ Forall (λ k, ∃ account, get_account_by_key (manager savings_state) k
                              = Return (Some account)) path
    ∧ (∀ i parent child,
         path !! i = Some parent → path !! S i = Some child →
         ∃ account, get_account_by_key (manager savings_state) child
                    = Return (Some account)
                    ∧ pd.Series_get account "parent_key" (VStr "") = parent).
Proof.
  apply get_account_path_keys. unfold max_depth. lia.
Defined.

Lemma wellformed_columns self :
  wellformed self →
  "account_key" ∈ pd.columns (_df self) ∧ "parent_key" ∈ pd.columns (_df self).
Proof.
  intros (Hcols & _). rewrite Hcols.
  split; apply (bool_decide_unpack _); vm_compute; exact I.
Qed.

(** In a well-formed store a stored key is found, is truthy, and its
    record's parent is empty or stored. *)
Lemma wellformed_lookup self v :
  wellformed self → v ∈ account_keys self →
  truthy v = true
  ∧ ∃ account, first_match self v = Some account
               ∧ (pd.Series_get account "parent_key" (VStr "") = VStr ""
                  ∨ pd.Series_get account "parent_key" (VStr "") ∈ account_keys self).
Proof.
  intros Hwf Hin. destruct (wellformed_columns self Hwf) as [Hk Hp].
  destruct Hwf as (Hcols & _ & Hkeys & _ & Hparents).
  rewrite Forall_forall in Hkeys, Hparents.
  pose proof Hin as Hin'. unfold account_keys in Hin'.
  apply list_elem_of_fmap in Hin' as (r & -> & Hr).
  destruct (Hkeys r Hr) as (k & Hrk & Hshape). rewrite Hrk. split.
  - simpl. apply is_account_key_nonempty in Hshape.
    by rewrite bool_decide_eq_false_2.
  - unfold first_match. rewrite bool_decide_eq_true_2 by done.
    destruct (List.find _ _) as [r'|] eqn:Hfind.
    + apply find_hit in Hfind as [Hr' _]. eexists. split; [reflexivity|].
      unfold pd.Series_get. cbn [pd.index pd.data].
      rewrite bool_decide_eq_true_2 by done. by apply Hparents.
    + exfalso. apply (proj1 (find_none_iff _ _) Hfind r) in Hr.
      apply py_eq_VStr_false in Hr. done.
Qed.

Lemma ancestors_root n self v :
  wellformed self → v ∈ account_keys self →
  length (ancestors n self v) < n →
  ∃ root account,
    last (ancestors n self v) = Some root
    ∧ first_match self root = Some account
    ∧ pd.Series_get account "parent_key" (VStr "") = VStr "".
Proof.
  intros Hwf. revert v. induction n as [|n IH]; intros v Hin Hlen; [lia|].
  destruct (wellformed_lookup self v Hwf Hin) as (Htruthy & account & Hfind & Hparent).
  cbn [ancestors] in *. rewrite Htruthy, Hfind in *. cbn [length] in Hlen.
  destruct Hparent as [Hroot|Hstored].
  - exists v, account. rewrite Hroot.
    rewrite ancestors_falsy by done. by split.
  - destruct (IH _ Hstored) as (root & acc & Hlast & Hacc & Hr); [lia|].
    exists root, acc. split; [|done]. rewrite last_cons. by rewrite Hlast.
Qed.

(** X12: paths start at a root.  In every state reached through the
    methods of the class, the path of a stored key ends with that key,
    and unless it was cut at the hop bound it starts with an account
    whose [parent_key] is empty. *)
Theorem reachable_path_starts_at_root fuel st (key : string) :
  reachable in_source st →
  VStr key ∈ account_keys (manager st) →
  max_depth < fuel →
  ∃ path,
    get_account_path fuel (manager st) (VStr key) = Return path
    ∧ last path = Some (VStr key)
    ∧ (length path < 100 →
       ∃ root account,
         head path = Some root
         ∧ get_account_by_key (manager st) root = Return (Some account)
         ∧ pd.Series_get account "parent_key" (VStr "") = VStr "").
Proof.
  intros Hreach Hin Hfuel. apply reachable_in_source_wellformed in Hreach.
  exists (reverse (ancestors max_depth (manager st) (VStr key))).
  split; [|split].
  - unfold get_account_path. rewrite get_account_path_loop_ancestors by lia.
    by rewrite Nat.sub_0_r, app_nil_r, rev_reverse.
  - rewrite last_reverse.
    destruct (wellformed_lookup _ _ Hreach Hin) as (Htruthy & account & Hfind & _).
    change max_depth with (S 99). cbn [ancestors]. by rewrite Htruthy, Hfind.
  - rewrite length_reverse. intros Hlen.
    destruct (ancestors_root max_depth _ _ Hreach Hin Hlen)
      as (root & account & Hlast & Hfind & Hroot).
    exists root, account. rewrite head_reverse.
    by rewrite get_account_by_key_first_match, Hfind.
Qed.

Lemma reachable_path_starts_at_root_witness :
  ∃ path,
    get_account_path 101 (manager checking_state) (VStr "FGHIJ") = Return path
    ∧ last path = Some (VStr "FGHIJ")
    ∧ (length path < 100 →
       ∃ root account,
         head path = Some root
         ∧ get_account_by_key (manager checking_state) root = Return (Some account)
         ∧ pd.Series_get account "parent_key" (VStr "") = VStr "").
Proof.
  apply reachable_path_starts_at_root.
  - apply (checking_state_reachable in_source); reflexivity.
  - apply (bool_decide_unpack _). vm_compute. exact I.
  - unfold max_depth. lia.
Defined.

Lemma ancestors_stable n self v :
  length (ancestors (S n) self v) ≤ n →
  ancestors (S n) self v = ancestors n self v.
Proof.
  revert v. induction n as [|n IH]; intros v Hlen.
  - destruct (ancestors 1 self v); [done|]. cbn [length] in Hlen. lia.
  - cbn [ancestors] in *. destruct (truthy v); [|done].
    destruct (first_match self v) as [account|]; [|done].
    cbn [length] in Hlen. f_equal. apply IH. cbn [ancestors]. lia.
Qed.

(** Appending a row does not change what the walk from a stored key of
    a well-formed store sees. *)
Lemma ancestors_extend n self self' row v :
  wellformed self →
  pd.columns (_df self') = pd.columns (_df self) →
  pd.rows (_df self') = pd.rows (_df self) ++ [row] →
  v = VStr "" ∨ v ∈ account_keys self →
  ancestors n self' v = ancestors n self v.
Proof.
  intros Hwf Hcols Hrows. revert v.
  induction n as [|n IH]; intros v Hv; [done|].
  destruct Hv as [->|Hv]; [by rewrite !ancestors_falsy|].
  destruct (wellformed_lookup self v Hwf Hv) as (Htruthy & account & Hfind & Hparent).
  assert (first_match self' v = Some account) as Hfind'.
  { revert Hfind. unfold first_match. rewrite Hcols, Hrows.
    case_bool_decide; [|done].
    destruct (List.find _ (pd.rows (_df self))) as [r|] eqn:Hr; [|done].
    by rewrite (find_app_hit _ _ _ _ Hr). }
  cbn [ancestors]. rewrite Htruthy, Hfind, Hfind'. f_equal. by apply IH.
Qed.

(** X13: the path of a new account is its parent's path and then its
    own key.  In a state reached through the methods of the class,
    after [create_account] returns a key: without parent the key's path
    is the key alone; with a parent whose path has fewer than 100 keys,
    the key's path in the new state is that path followed by the key. *)
Theorem create_account_extends_path
    fuel t n fn p an cur h opt st key st' fuel' :
  reachable in_source st →
  create_account fuel t n fn p an cur h opt st = (Return key, st') →
  max_depth < fuel' →
  (p = "" → get_account_path fuel' (manager st') (VStr key) = Return [VStr key])
  ∧ (p ≠ "" →
     ∀ path, get_account_path fuel' (manager st) (VStr p) = Return path →
             length path < 100 →
             get_account_path fuel' (manager st') (VStr key)
             = Return (path ++ [VStr key])).
Proof.
  intros Hreach Hcreate Hfuel.
  apply reachable_in_source_wellformed in Hreach as Hwf.
  pose proof (create_account_wellformed _ _ _ _ _ _ _ _ _ _ _ _ Hwf Hcreate) as Hwf'.
  pose proof Hwf as (Hcols & _).
  destruct (create_account_frame _ _ _ _ _ _ _ _ _ _ _ _ Hcols Hcreate)
    as [Hfree Hdf].
  apply create_account_returns_inv in Hcreate as (_ & Hp & (i & _ & Hdraw) & _ & _).
  destruct (wellformed_columns _ Hwf) as [Hk _].
  set (record := new_record key t n fn p an cur h opt) in *.
  assert (ancestors max_depth (manager st') (VStr key)
          = VStr key :: ancestors 99 (manager st') (VStr p)) as Hanc.
  { change max_depth with (S 99). cbn [ancestors].
    assert (truthy (VStr key) = true) as ->.
    { simpl. rewrite bool_decide_eq_false_2; [done|].
      apply is_account_key_nonempty. subst key. apply nth_draw_is_account_key. }
    unfold first_match. rewrite Hdf. cbn [pd.columns pd.rows].
    rewrite bool_decide_eq_true_2
      by (apply (bool_decide_unpack _); vm_compute; exact I).
    rewrite key_free_forall in Hfree.
    rewrite find_app_miss
      by (intros row Hrow; apply py_eq_VStr_false; by apply Hfree).
    cbn [List.find].
    destruct (new_record_required key t n fn p an cur h opt "account_key" (VStr key))
      as [_ Hkey]; [left|].
    destruct (new_record_required key t n fn p an cur h opt "parent_key" (VStr p))
      as [_ Hparent]; [right; left|].
    fold record in Hkey, Hparent.
    rewrite Hkey. cbn [py_eq]. rewrite bool_decide_eq_true_2 by done.
    cbn [fmap option_fmap option_map]. unfold pd.Series_get. cbn [pd.index pd.data].
    rewrite bool_decide_eq_true_2
      by (apply (bool_decide_unpack _); vm_compute; exact I).
    by rewrite Hparent. }
  assert (∀ path', get_account_path fuel' (manager st') (VStr key) = Return path'
                   ↔ path' = rev (ancestors 99 (manager st') (VStr p)) ++ [VStr key])
    as Hpath.
  { intros path'. unfold get_account_path.
    rewrite get_account_path_loop_ancestors by lia.
    rewrite Nat.sub_0_r, app_nil_r, Hanc. cbn [rev].
    split; [by intros [= <-]|by intros ->]. }
  split.
  - intros ->. apply Hpath. by rewrite ancestors_falsy.
  - intros Hne path Hget Hlen. apply Hpath. f_equal.
    unfold get_account_path in Hget.
    rewrite get_account_path_loop_ancestors in Hget by lia.
    rewrite Nat.sub_0_r, app_nil_r in Hget.
    assert (path = rev (ancestors max_depth (manager st) (VStr p))) as ->
      by congruence.
    rewrite length_rev in Hlen.
    pose proof (ancestors_stable 99 (manager st) (VStr p)) as Hstable.
    change (S 99) with max_depth in Hstable. rewrite Hstable by lia.
    apply (f_equal (@rev Value)). symmetry.
    eapply ancestors_extend; [exact Hwf|by rewrite Hdf|by rewrite Hdf|].
    right. apply parent_rejected_false in Hp as [->|Hin]; [done| |done].
    apply Exists_exists in Hin as (r & Hr & Hrk).
    unfold account_keys. apply list_elem_of_fmap. exists r.
    split; [symmetry; exact Hrk|exact Hr].
Qed.

Lemma create_account_extends_path_witness :
  ("FGHIJ" = "" →
   get_account_path 101 (manager savings_state) (VStr "KLMNO")
   = Return [VStr "KLMNO"])
  ∧ ("FGHIJ" ≠ "" →
     ∀ path, get_account_path 101 (manager checking_state) (VStr "FGHIJ")
             = Return path →
             length path < 100 →
             get_account_path 101 (manager savings_state) (VStr "KLMNO")
             = Return (path ++ [VStr "KLMNO"])).
Proof.
  apply (create_account_extends_path 1 "BANK" "Savings"
           "Assets:Cash:Checking:Savings" "FGHIJ" "" "EUR" false ∅
           checking_state "KLMNO" savings_state 101).
  - apply (checking_state_reachable in_source); reflexivity.
  - vm_compute. reflexivity.
  - unfold max_depth. lia.
Defined.

(** ** Further properties of the store as a whole *)

(** X14: [create_account] raises nothing but its two [ValueError]s (no
    [KeyError] or [IndexError] escapes from the frame accesses), and
    whenever it raises, the state is the one it was called on. *)
Theorem create_account_raises_only_its_errors
    fuel t n fn p an cur h opt st e st' :
  create_account fuel t n fn p an cur h opt st = (Raise e, st') →
  (e = InvalidType t ∨ e = UnknownParent p) ∧ st' = st.
Proof.
  rewrite create_account_eq.
  destruct (negb (is_valid t)); [intros [= <- <-]; split; [by left|done]|].
  destruct (parent_rejected _ _); [intros [= <- <-]; split; [by right|done]|].
  destruct (_generate_account_key _ _ _) as [[key| |] g] eqn:Hgen; try discriminate.
  by apply _generate_account_key_no_raise in Hgen.
Qed.

Lemma create_account_raises_only_its_errors_witness :
  (InvalidType "STOCK" = InvalidType "STOCK"
   ∨ InvalidType "STOCK" = UnknownParent "QQQQQ")
  ∧ cash_state = cash_state.
Proof.
  apply (create_account_raises_only_its_errors 1 "STOCK" "Shares" "Assets:Shares"
           "QQQQQ" "" "EUR" false ∅ cash_state).
  vm_compute. reflexivity.
Defined.

Lemma hierarchy_first_is_root rows r l :
  hierarchy rows → rows = r :: l → pd.cell r "parent_key" = VStr "".
Proof.
  intros Hrows. revert r l.
  induction Hrows as [|rows row key parent Hrows IH Hkey Hne Hfresh Hparent Hin];
    intros r l Heq; [done|].
  destruct rows as [|r0 rows'].
  - injection Heq as <- _. destruct Hin as [->|Hin]; [done|].
    by apply Exists_nil in Hin.
  - injection Heq as <- _. by eapply IH.
Qed.

(** X15: a store that is not empty has a root.  In every state reached
    through the methods of the class the first stored account has an
    empty [parent_key], so [get_root_accounts] returns it first. *)
Theorem reachable_first_account_is_root st r l :
  reachable in_source st →
  pd.rows (_df (manager st)) = r :: l →
  pd.cell r "parent_key" = VStr ""
  ∧ ∃ df l', get_root_accounts (manager st) = Return df ∧ pd.rows df = r :: l'.
Proof.
  intros Hreach Hrows.
  apply reachable_in_source_store_ok in Hreach as (_ & Hp & Hhier).
  pose proof (hierarchy_first_is_root _ _ _ Hhier Hrows) as Hroot.
  split; [done|]. eexists _, _. split.
  - change (get_root_accounts (manager st))
      with (get_children (manager st) (VStr "")).
    apply children_rows.
  - rewrite bool_decide_eq_true_2 by done. cbn [pd.rows].
    rewrite Hrows. cbn [List.filter]. rewrite Hroot. reflexivity.
Qed.

Lemma reachable_first_account_is_root_witness :
  pd.cell (default ∅ (head (pd.rows (_df (manager checking_state)))))
    "parent_key" = VStr ""
  ∧ ∃ df l', get_root_accounts (manager checking_state) = Return df
             ∧ pd.rows df
               = default ∅ (head (pd.rows (_df (manager checking_state)))) :: l'.
Proof.
  apply (reachable_first_account_is_root checking_state
           (default ∅ (head (pd.rows (_df (manager checking_state)))))
           (tail (pd.rows (_df (manager checking_state))))).
  - apply (checking_state_reachable in_source); reflexivity.
  - vm_compute. reflexivity.
Defined.

Lemma py_eq_true a b : py_eq a b = true → a = b.
Proof.
  destruct a, b; cbn [py_eq]; try discriminate;
    intros H; apply bool_decide_eq_true in H; congruence.
Qed.

Lemma first_match_stored self v account :
  first_match self v = Some account → v ∈ account_keys self.
Proof.
  unfold first_match. case_bool_decide; [|done].
  destruct (List.find _ _) as [r|] eqn:Hfind; [|done]. intros _.
  apply find_hit in Hfind as [Hr Heq]. apply py_eq_true in Heq.
  unfold account_keys. apply list_elem_of_fmap. by exists r.
Qed.

Lemma ancestors_stored n self v :
  Forall (λ k, k ∈ account_keys self) (ancestors n self v).
Proof.
  eapply Forall_impl; [apply ancestors_found|].
  intros k [_ [account Hfind]]. by eapply first_match_stored.
Qed.

(** A returning [create_account] keeps the walks free of repeats. *)
Lemma create_account_ancestors_NoDup fuel t n fn p an cur h opt st key st' :
  wellformed (manager st) →
  (∀ m v, NoDup (ancestors m (manager st) v)) →
  create_account fuel t n fn p an cur h opt st = (Return key, st') →
  ∀ m v, NoDup (ancestors m (manager st') v).
Proof.
  intros Hwf Hsimple Hcreate m v.
  pose proof Hwf as (Hcols & _).
  destruct (create_account_frame _ _ _ _ _ _ _ _ _ _ _ _ Hcols Hcreate)
    as [Hfree Hdf].
  apply create_account_returns_inv in Hcreate as (_ & Hp & _ & _ & _).
  assert (∀ k w, w = VStr "" ∨ w ∈ account_keys (manager st) →
                 ancestors k (manager st') w = ancestors k (manager st) w) as Hext.
  { intros k w Hw. eapply ancestors_extend; [exact Hwf| | |exact Hw];
      by rewrite Hdf. }
  destruct (decide (v ∈ account_keys (manager st))) as [Hv|Hv];
    [rewrite Hext by (by right); apply Hsimple|].
  destruct m as [|m]; [constructor|]. cbn [ancestors].
  destruct (truthy v); [|constructor].
  destruct (first_match (manager st') v) as [account|] eqn:Hfind; [|constructor].
  revert Hfind. unfold first_match. rewrite Hdf. cbn [pd.columns pd.rows].
  case_bool_decide; [|done].
  rewrite find_app_miss.
  2:{ intros r Hr. destruct (py_eq _ v) eqn:Heq; [|done].
      apply py_eq_true in Heq. exfalso. apply Hv. unfold account_keys.
      apply list_elem_of_fmap. by exists r. }
  cbn [List.find].
  destruct (new_record_required key t n fn p an cur h opt "account_key" (VStr key))
    as [_ Hkey]; [left|].
  destruct (new_record_required key t n fn p an cur h opt "parent_key" (VStr p))
    as [_ Hparent]; [right; left|].
  rewrite Hkey. destruct (py_eq (VStr key) v) eqn:Heq; [|done].
  apply py_eq_true in Heq. subst v. intros [= <-].
  unfold pd.Series_get. cbn [pd.index pd.data].
  rewrite bool_decide_eq_true_2
    by (apply (bool_decide_unpack _); vm_compute; exact I).
  rewrite Hparent, Hext.
  2:{ apply parent_rejected_false in Hp as [->|Hin]; [by left| |].
      - right. apply Exists_exists in Hin as (r & Hr & Hrk).
        unfold account_keys. apply list_elem_of_fmap. by exists r.
      - rewrite Hcols. apply (bool_decide_unpack _). vm_compute. exact I. }
  apply NoDup_cons. split; [|apply Hsimple].
  intros Hin. apply Hv.
  pose proof (ancestors_stored m (manager st) (VStr p)) as Hstored.
  rewrite Forall_forall in Hstored. by apply Hstored.
Qed.

Lemma create_account_manager_kept fuel t n fn p an cur h opt st :
  (∃ key, (create_account fuel t n fn p an cur h opt st).1 = Return key)
  ∨ manager (create_account fuel t n fn p an cur h opt st).2 = manager st.
Proof.
  rewrite create_account_eq.
  destruct (negb (is_valid t)); [by right|].
  destruct (parent_rejected _ _); [by right|].
  destruct (_generate_account_key _ _ _) as [[key| |] g];
    [left; by eexists|by right..].
Qed.

Lemma reachable_ancestors_NoDup st :
  reachable in_source st → ∀ m v, NoDup (ancestors m (manager st) v).
Proof.
  induction 1 as [g|st fuel c o st' Hreach IH Hc Hrun Ho].
  - intros [|m] v; cbn [ancestors]; [constructor|].
    destruct (truthy v); constructor.
  - apply reachable_in_source_wellformed in Hreach as Hwf.
    replace st' with (run fuel c st).2 by (by rewrite Hrun).
    destruct (is_query c) eqn:Hq; [by rewrite run_query_state|].
    destruct c; try discriminate. clear Hc Hq Hrun. cbn [run].
    unfold mbind at 1. unfold M_bind.
    destruct (create_account_manager_kept fuel account_type name full_name
                parent_key account_number currency hidden optional_fields st)
      as [[key Hkey]|Hkept].
    + destruct (create_account _ _ _ _ _ _ _ _ _ st) as [o' st''] eqn:Hcreate.
      cbn [fst] in Hkey. subst o'. unfold mret, M_ret. cbn [snd].
      by eapply create_account_ancestors_NoDup.
    + destruct (create_account _ _ _ _ _ _ _ _ _ st) as [[key| |] st''];
        cbn [snd] in *; unfold mret, M_ret; cbn [snd]; by rewrite Hkept.
Qed.

(** X16: no account is visited twice.  In every state reached through
    the methods of the class, a path has no repeated key, so it is no
    longer than the number of stored accounts: a store with fewer than
    100 accounts never has a path cut at the hop bound. *)
Theorem reachable_path_has_no_repeats fuel st (key : Value) :
  reachable in_source st →
  max_depth < fuel →
  ∃ path, get_account_path fuel (manager st) key = Return path
          ∧ NoDup path
          ∧ length path ≤ length (pd.rows (_df (manager st))).
Proof.
  intros Hreach Hfuel.
  exists (reverse (ancestors max_depth (manager st) key)).
  pose proof (reachable_ancestors_NoDup st Hreach max_depth key) as Hnodup.
  split; [|split].
  - unfold get_account_path. rewrite get_account_path_loop_ancestors by lia.
    by rewrite Nat.sub_0_r, app_nil_r, rev_reverse.
  - by rewrite reverse_Permutation.
  - rewrite length_reverse.
    replace (length (pd.rows (_df (manager st))))
      with (length (account_keys (manager st)))
      by (unfold account_keys; apply length_fmap).
    apply submseteq_length, NoDup_submseteq; [done|].
    intros k Hk.
    pose proof (ancestors_stored max_depth (manager st) key) as Hstored.
    rewrite Forall_forall in Hstored. apply Hstored. exact Hk.
Qed.

Lemma reachable_path_has_no_repeats_witness :
  ∃ path, get_account_path 101 (manager checking_state) (VStr "FGHIJ") = Return path
          ∧ NoDup path
          ∧ length path ≤ length (pd.rows (_df (manager checking_state))).
Proof.
  apply reachable_path_has_no_repeats.
  - apply (checking_state_reachable in_source); reflexivity.
  - unfold max_depth. lia.
Defined.
